(* Verification of the server-monitoring kernel of ServerPingTracker:
   shared/schema.ts (records), server/storage.ts (MemStorage),
   server/ping-service.ts (PingService) and server/routes.ts (handlers).

   Conventions of the embedding:
   - TypeScript `number` values used as ids, milliseconds and seconds are Z;
   - `null` / `undefined` is [None];
   - `new Date()` is a millisecond clock value [now : Z] passed explicitly;
   - the JS [Map<number, Server>] is an association list kept in insertion
     order, as [Map] iterates;
   - the network is an oracle: what [fetch] and a socket report for a given
     URL or (host, port), and after how many milliseconds. *)

From Stdlib Require Import ZArith List String Ascii Bool Lia Sorted Permutation.
Import ListNotations.
Open Scope Z_scope.

(* ------------------------------------------------------------------ *)
(** * shared/schema.ts *)

Inductive ServerStatus := Online | Offline | Unknown.

Definition ServerStatus_eqb (a b : ServerStatus) : bool :=
  match a, b with
  | Online, Online | Offline, Offline | Unknown, Unknown => true
  | _, _ => false
  end.

Module Server.
Record t := mk {
  id : Z;
  hostname : string;
  ip : string;
  displayName : option string;
  status : ServerStatus;
  responseTime : option Z;
  lastPing : option Z;
  createdAt : Z
}.
End Server.

Inductive PingLogStatus := LogSuccess | LogFailed.

Module PingLog.
Record t := mk {
  id : Z;
  serverId : Z;
  status : PingLogStatus;
  responseTime : option Z;
  details : option string;
  timestamp : Z
}.
End PingLog.

Module Settings.
Record t := mk {
  id : Z;
  pingInterval : Z;
  timeout : Z;
  autoRefresh : bool
}.
End Settings.

(** [InsertServer]: the picked fields hostname, ip, displayName. *)
Module InsertServer.
Record t := mk { hostname : string; ip : string; displayName : option string }.
End InsertServer.

(** [InsertPingLog]: the picked fields serverId, status, responseTime, details. *)
Module InsertPingLog.
Record t := mk {
  serverId : Z; status : PingLogStatus;
  responseTime : option Z; details : option string }.
End InsertPingLog.

(** The [Partial<Server>] that the probing paths pass to [updateServer]:
    each field is [None] when the key is absent from the patch. *)
Module ServerPatch.
Record t := mk {
  status : option ServerStatus;
  responseTime : option (option Z);
  lastPing : option (option Z)
}.
End ServerPatch.

(* ------------------------------------------------------------------ *)
(** * The JS [Map<number, V>] as an insertion-ordered association list *)

Section JsMap.
Context {V : Type}.

(** [Map.prototype.get] *)
Fixpoint map_get (k : Z) (m : list (Z * V)) : option V :=
  match m with
  | [] => None
  | (k', v) :: r => if Z.eqb k k' then Some v else map_get k r
  end.

(** [Map.prototype.set]: an existing key keeps its position. *)
Fixpoint map_set (k : Z) (v : V) (m : list (Z * V)) : list (Z * V) :=
  match m with
  | [] => [(k, v)]
  | (k', v') :: r =>
      if Z.eqb k k' then (k, v) :: r else (k', v') :: map_set k v r
  end.

(** [Map.prototype.has] *)
Definition map_has (k : Z) (m : list (Z * V)) : bool :=
  match map_get k m with Some _ => true | None => false end.

(** [Map.prototype.delete]: whether the key was there, and the map
    without it. *)
Definition map_delete (k : Z) (m : list (Z * V)) : bool * list (Z * V) :=
  (existsb (fun e => Z.eqb k (fst e)) m,
   filter (fun e => negb (Z.eqb k (fst e))) m).

(** [Array.from(map.values())] *)
Definition map_values (m : list (Z * V)) : list V := map snd m.
End JsMap.

(* ------------------------------------------------------------------ *)
(** * server/storage.ts: MemStorage *)

(** The JSON document written to server-monitor-data.json. *)
Module DataFile.
Record t := mk {
  servers : list Server.t;
  pingLogs : list PingLog.t;
  settings : Settings.t
}.
End DataFile.

(** The fields of a [MemStorage] instance, together with the part of the
    world that outlives the process: the contents of its data file, and
    whether the file system accepts [writeFileSync] of that file. *)
Module MemStorage.
Record t := mk {
  servers : list (Z * Server.t);
  pingLogs : list PingLog.t;
  settings : Settings.t;
  currentServerId : Z;
  currentPingLogId : Z;
  dataFile : option DataFile.t;
  fileWritable : bool
}.
End MemStorage.

Import MemStorage.

Definition set_servers (m : list (Z * Server.t)) (s : MemStorage.t) :=
  MemStorage.mk m (pingLogs s) (settings s) (currentServerId s)
    (currentPingLogId s) (dataFile s) (fileWritable s).
Definition set_pingLogs (l : list PingLog.t) (s : MemStorage.t) :=
  MemStorage.mk (servers s) l (settings s) (currentServerId s)
    (currentPingLogId s) (dataFile s) (fileWritable s).
Definition set_currentServerId (n : Z) (s : MemStorage.t) :=
  MemStorage.mk (servers s) (pingLogs s) (settings s) n
    (currentPingLogId s) (dataFile s) (fileWritable s).
Definition set_currentPingLogId (n : Z) (s : MemStorage.t) :=
  MemStorage.mk (servers s) (pingLogs s) (settings s) (currentServerId s)
    n (dataFile s) (fileWritable s).

Definition default_settings : Settings.t := Settings.mk 1 60 10 true.

(** The field initialisers of the constructor, before [loadData]. *)
Definition initial_storage (file : option DataFile.t) (writable : bool) : MemStorage.t :=
  MemStorage.mk [] [] default_settings 1 1 file writable.

(** [Math.max(...xs, 0)] *)
Definition js_max0 (xs : list Z) : Z := fold_right Z.max 0 xs.

(** [loadData]: a persisted document replaces the three collections and
    the counters restart one past the largest stored id. *)
Definition loadData (s : MemStorage.t) : MemStorage.t :=
  match dataFile s with
  | None => s
  | Some d =>
      let srvs := fold_left (fun m (srv : Server.t) => map_set (Server.id srv) srv m)
                    (DataFile.servers d) [] in
      MemStorage.mk srvs (DataFile.pingLogs d) (DataFile.settings d)
        (js_max0 (map Server.id (DataFile.servers d)) + 1)
        (js_max0 (map PingLog.id (DataFile.pingLogs d)) + 1)
        (dataFile s) (fileWritable s)
  end.

(** [new MemStorage()] given the current contents of the data file and
    whether the file system accepts writes to it. *)
Definition new_MemStorage (file : option DataFile.t) (writable : bool) : MemStorage.t :=
  loadData (initial_storage file writable).

(** [saveData]: when [writeFileSync] fails, the catch only logs and the
    old file stays. *)
Definition saveData (s : MemStorage.t) : MemStorage.t :=
  MemStorage.mk (servers s) (pingLogs s) (settings s) (currentServerId s)
    (currentPingLogId s)
    (if fileWritable s
     then Some (DataFile.mk (map_values (servers s)) (pingLogs s) (settings s))
     else dataFile s)
    (fileWritable s).


Definition getServers (s : MemStorage.t) : list Server.t := map_values (servers s).

Definition getServer (id : Z) (s : MemStorage.t) : option Server.t :=
  map_get id (servers s).

(** [insertServer.displayName || null] *)
Definition or_null_str (o : option string) : option string :=
  match o with
  | Some EmptyString => None
  | o => o
  end.

Definition new_server (id : Z) (ins : InsertServer.t) (now : Z) : Server.t :=
  Server.mk id (InsertServer.hostname ins) (InsertServer.ip ins)
    (or_null_str (InsertServer.displayName ins)) Unknown None None now.

Definition createServer (ins : InsertServer.t) (now : Z) (s : MemStorage.t)
  : Server.t * MemStorage.t :=
  let id := currentServerId s in
  let s1 := set_currentServerId (id + 1) s in
  let srv := new_server id ins now in
  (srv, saveData (set_servers (map_set id srv (servers s1)) s1)).

Fixpoint createServers_loop (inss : list InsertServer.t) (now : Z)
  (s : MemStorage.t) : list Server.t * MemStorage.t :=
  match inss with
  | [] => ([], s)
  | ins :: rest =>
      let id := currentServerId s in
      let s1 := set_currentServerId (id + 1) s in
      let srv := new_server id ins now in
      let s2 := set_servers (map_set id srv (servers s1)) s1 in
      let '(created, s3) := createServers_loop rest now s2 in
      (srv :: created, s3)
  end.

Definition createServers (inss : list InsertServer.t) (now : Z) (s : MemStorage.t)
  : list Server.t * MemStorage.t :=
  let '(created, s1) := createServers_loop inss now s in
  (created, saveData s1).

(** [{ ...server, ...updates }] *)
Definition apply_patch (srv : Server.t) (p : ServerPatch.t) : Server.t :=
  Server.mk (Server.id srv) (Server.hostname srv) (Server.ip srv)
    (Server.displayName srv)
    (match ServerPatch.status p with Some v => v | None => Server.status srv end)
    (match ServerPatch.responseTime p with Some v => v | None => Server.responseTime srv end)
    (match ServerPatch.lastPing p with Some v => v | None => Server.lastPing srv end)
    (Server.createdAt srv).

Definition updateServer (id : Z) (p : ServerPatch.t) (s : MemStorage.t)
  : option Server.t * MemStorage.t :=
  match map_get id (servers s) with
  | None => (None, s)
  | Some srv =>
      let upd := apply_patch srv p in
      (Some upd, saveData (set_servers (map_set id upd (servers s)) s))
  end.

Definition deleteServer (id : Z) (s : MemStorage.t) : bool * MemStorage.t :=
  let '(deleted, m) := map_delete id (servers s) in
  let s1 := set_servers m s in
  if deleted then (true, saveData s1) else (false, s).

(** [if (serverId)]: a number is truthy unless it is 0 (or NaN). *)
Definition js_truthy_num (o : option Z) : option Z :=
  match o with
  | Some n => if Z.eqb n 0 then None else Some n
  | None => None
  end.

(** One insertion step of a stable sort under the comparator
    [(a, b) => b.timestamp - a.timestamp]: an element goes before every
    element that does not have a strictly larger timestamp. *)
Fixpoint insert_desc (x : PingLog.t) (l : list PingLog.t) : list PingLog.t :=
  match l with
  | [] => [x]
  | y :: r =>
      if PingLog.timestamp y <=? PingLog.timestamp x then x :: y :: r
      else y :: insert_desc x r
  end.

(** [Array.prototype.sort] with that comparator (stable since ES2019). *)
Fixpoint sort_desc (l : list PingLog.t) : list PingLog.t :=
  match l with
  | [] => []
  | x :: r => insert_desc x (sort_desc r)
  end.

(** [xs.slice(0, end)], a negative [end] counting from the end. *)
Definition js_slice0 {A} (xs : list A) (e : Z) : list A :=
  let len := Z.of_nat (List.length xs) in
  let stop := if e <? 0 then Z.max 0 (len + e) else Z.min e len in
  firstn (Z.to_nat stop) xs.

(** [xs.slice(-n)] for [n > 0]: the last [n] elements. *)
Definition js_slice_neg {A} (xs : list A) (n : Z) : list A :=
  skipn (Nat.sub (List.length xs) (Z.to_nat n)) xs.

Definition getPingLogs (serverId : option Z) (limit : Z) (s : MemStorage.t)
  : list PingLog.t :=
  let logs := pingLogs s in
  let logs := match js_truthy_num serverId with
              | Some sid => filter (fun l => Z.eqb (PingLog.serverId l) sid) logs
              | None => logs
              end in
  js_slice0 (sort_desc logs) limit.

Definition getPingLogs_default (serverId : option Z) (s : MemStorage.t) :=
  getPingLogs serverId 100 s.

Definition MAX_PING_LOGS : Z := 1000.

Definition createPingLog (ins : InsertPingLog.t) (now : Z) (s : MemStorage.t)
  : PingLog.t * MemStorage.t :=
  let id := currentPingLogId s in
  let s1 := set_currentPingLogId (id + 1) s in
  let log := PingLog.mk id (InsertPingLog.serverId ins) (InsertPingLog.status ins)
               (InsertPingLog.responseTime ins)
               (or_null_str (InsertPingLog.details ins)) now in
  let logs := pingLogs s1 ++ [log] in
  let logs := if Z.of_nat (List.length logs) >? MAX_PING_LOGS
              then js_slice_neg logs MAX_PING_LOGS else logs in
  (log, saveData (set_pingLogs logs s1)).

Definition getSettings (s : MemStorage.t) : Settings.t := settings s.

(* ------------------------------------------------------------------ *)
(** * Probe results and how the callers record them *)

Module PingResult.
Record t := mk { success : bool; responseTime : option Z; details : string }.
End PingResult.

(** [result.responseTime || null]: 0 is falsy. *)
Definition or_null_num (o : option Z) : option Z :=
  match o with
  | Some 0 => None
  | o => o
  end.

(** The patch given to [updateServer] by [pingAllServers] and by the
    single-ping route. *)
Definition status_patch (r : PingResult.t) (now : Z) : ServerPatch.t :=
  ServerPatch.mk
    (Some (if PingResult.success r then Online else Offline))
    (Some (or_null_num (PingResult.responseTime r)))
    (Some (Some now)).

Definition log_insert (serverId : Z) (r : PingResult.t) : InsertPingLog.t :=
  InsertPingLog.mk serverId
    (if PingResult.success r then LogSuccess else LogFailed)
    (or_null_num (PingResult.responseTime r))
    (Some (PingResult.details r)).

(** The awaited result of [pingService.pingServer(server, timeout)]. *)
Definition Prober := Server.t -> Z -> PingResult.t.

(** [PingService.pingAllServers]: one sequential sweep over a snapshot.
    [clock k] is the value of the [k]-th [new Date()] of the sweep: for the
    [i]-th target, [lastPing] reads [clock (2 i)] once its probe has
    settled, and [createPingLog] stamps the record with [clock (2 i + 1)]. *)
Fixpoint pingAll_loop (probe : Prober) (timeout : Z) (clock : nat -> Z) (i : nat)
  (srvs : list Server.t) (s : MemStorage.t) : MemStorage.t :=
  match srvs with
  | [] => s
  | srv :: rest =>
      let r := probe srv timeout in
      let '(_, s1) := updateServer (Server.id srv) (status_patch r (clock (2 * i)%nat)) s in
      let '(_, s2) := createPingLog (log_insert (Server.id srv) r) (clock (S (2 * i))) s1 in
      pingAll_loop probe timeout clock (S i) rest s2
  end.

Definition pingAllServers (probe : Prober) (clock : nat -> Z) (s : MemStorage.t) : MemStorage.t :=
  pingAll_loop probe (Settings.timeout (getSettings s)) clock 0 (getServers s) s.

(** The record that [createPingLog] files for [srv] during a sweep, given
    the record id and the time stamp. *)
Definition sweep_record (probe : Prober) (T : Z) (srv : Server.t) (id stamp : Z) : PingLog.t :=
  let ins := log_insert (Server.id srv) (probe srv T) in
  PingLog.mk id (InsertPingLog.serverId ins) (InsertPingLog.status ins)
    (InsertPingLog.responseTime ins) (or_null_str (InsertPingLog.details ins)) stamp.

(** Responses of the handler of [POST /api/servers/:id/ping]. *)
Inductive PingResponse :=
| NotFound404
| Json200 (server : option Server.t).

Definition pingOneRoute (id : Z) (probe : Prober) (now : Z) (s : MemStorage.t)
  : PingResponse * MemStorage.t :=
  match getServer id s with
  | None => (NotFound404, s)
  | Some srv =>
      let r := probe srv (Settings.timeout (getSettings s)) in
      let '(upd, s1) := updateServer id (status_patch r now) s in
      let '(_, s2) := createPingLog (log_insert id r) now s1 in
      (Json200 upd, s2)
  end.

(* ------------------------------------------------------------------ *)
(** * GET /api/stats *)

(** [avgResponse]: the template string [`${n}ms`] or ["N/A"]. *)
Inductive AvgResponse := AvgMs (n : Z) | AvgNA.

Module Stats.
Record t := mk {
  onlineCount : Z; offlineCount : Z; totalCount : Z; avgResponse : AvgResponse }.
End Stats.

Definition is_status (st : ServerStatus) (srv : Server.t) : bool :=
  ServerStatus_eqb (Server.status srv) st.

(** [s.status === "online" && s.responseTime] *)
Definition online_with_time (srv : Server.t) : bool :=
  is_status Online srv &&
  match Server.responseTime srv with Some n => negb (Z.eqb n 0) | None => false end.

(** [(s.responseTime || 0)] *)
Definition time_or_0 (srv : Server.t) : Z :=
  match Server.responseTime srv with Some n => n | None => 0 end.

(** [Math.round(p / q)] for [q > 0]: [floor(p/q + 1/2)]. *)
Definition js_round_div (p q : Z) : Z := (2 * p + q) / (2 * q).

Definition computeStats (srvs : list Server.t) : Stats.t :=
  let onlineCount := Z.of_nat (List.length (filter (is_status Online) srvs)) in
  let offlineCount := Z.of_nat (List.length (filter (is_status Offline) srvs)) in
  let totalCount := Z.of_nat (List.length srvs) in
  let onl := filter online_with_time srvs in
  let avg := if Z.of_nat (List.length onl) >? 0
             then js_round_div (fold_left (fun acc x => acc + time_or_0 x) onl 0)
                               (Z.of_nat (List.length onl))
             else 0 in
  Stats.mk onlineCount offlineCount totalCount
    (if avg >? 0 then AvgMs avg else AvgNA).

(** The handler of [GET /api/stats]. *)
Definition statsRoute (s : MemStorage.t) : Stats.t := computeStats (getServers s).

(* ------------------------------------------------------------------ *)
(** * server/ping-service.ts: strings *)

Local Open Scope char_scope.

Definition is_digit (c : ascii) : bool :=
  (48 <=? nat_of_ascii c)%nat && (nat_of_ascii c <=? 57)%nat.

Definition digit_in (c : ascii) (lo hi : nat) : bool :=
  (lo <=? nat_of_ascii c)%nat && (nat_of_ascii c <=? hi)%nat.

Definition lower_ascii (c : ascii) : ascii :=
  if digit_in c 65 90 then ascii_of_nat (nat_of_ascii c + 32) else c.

Fixpoint lower (s : string) : string :=
  match s with
  | EmptyString => EmptyString
  | String c r => String (lower_ascii c) (lower r)
  end.

(** Decimal text of a number, as template strings print it. *)
Fixpoint dec_digits (fuel : nat) (n : Z) (acc : string) : string :=
  match fuel with
  | O => acc
  | S f =>
      let acc' := String (ascii_of_nat (48 + Z.to_nat (n mod 10))) acc in
      if Z.eqb (n / 10) 0 then acc' else dec_digits f (n / 10) acc'
  end.

Definition Z_to_dec (n : Z) : string :=
  let fuel := S (Z.to_nat (Z.log2 (Z.abs n))) in
  if (n <? 0)%Z then String "-" (dec_digits fuel (- n) EmptyString)
  else dec_digits fuel n EmptyString.

Local Close Scope char_scope.
Local Open Scope string_scope.
Local Open Scope Z_scope.

(** [172\.(1[6-9]|2[0-9]|3[01])\.] at the start of the string. *)
Definition prefix_172_private (s : string) : bool :=
  match s with
  | String "1" (String "7" (String "2" (String "." (String a (String b (String "." _)))))) =>
      (Ascii.eqb a "1" && digit_in b 54 57) ||
      (Ascii.eqb a "2" && is_digit b) ||
      (Ascii.eqb a "3" && digit_in b 48 49)
  | _ => false
  end%char.

(** [/^(192\.168\.|10\.|172\.(1[6-9]|2[0-9]|3[01])\.|127\.|localhost)/i.test(target)];
    the [i] flag only matters for the letters of [localhost]. *)
Definition isLocalIP (target : string) : bool :=
  prefix "192.168." target || prefix "10." target || prefix_172_private target ||
  prefix "127." target || prefix "localhost" (lower target).

(** One [(?:25[0-5]|2[0-4][0-9]|[01]?[0-9][0-9]?)] matched against a whole
    dot-free field. *)
Definition octet (f : string) : bool :=
  match f with
  | String a EmptyString => is_digit a
  | String a (String b EmptyString) => is_digit a && is_digit b
  | String a (String b (String c EmptyString)) =>
      (Ascii.eqb a "2" && Ascii.eqb b "5" && digit_in c 48 53) ||
      (Ascii.eqb a "2" && digit_in b 48 52 && is_digit c) ||
      ((Ascii.eqb a "0" || Ascii.eqb a "1") && is_digit b && is_digit c)
  | _ => false
  end%char.

(** The fields of a string between dots. *)
Fixpoint split_dot (s : string) : list string :=
  match s with
  | EmptyString => [EmptyString]
  | String c r =>
      if Ascii.eqb c "."%char then EmptyString :: split_dot r
      else match split_dot r with
           | f :: fs => String c f :: fs
           | [] => [String c EmptyString]
           end
  end.

(** [/^(?:OCTET\.){3}OCTET$/.test(target)]: an octet never contains a dot,
    so the pattern matches exactly four dot-separated octets. *)
Definition isIP (target : string) : bool :=
  Nat.eqb (List.length (split_dot target)) 4 && forallb octet (split_dot target).

Inductive Protocol := Http | Https.

Definition protocol_name (p : Protocol) : string :=
  match p with Http => "http" | Https => "https" end.

(** [protocol.toUpperCase()] *)
Definition protocol_upper (p : Protocol) : string :=
  match p with Http => "HTTP" | Https => "HTTPS" end.

(* ------------------------------------------------------------------ *)
(** * server/ping-service.ts: the network and the probe *)

(** What [fetch(url, {method: 'HEAD'})] does if left alone: a response
    after [elapsed] ms, a thrown network error after [elapsed] ms, or
    nothing at all. Node's fetch hands over final responses only: an
    interim (1xx) response is not delivered, so [status >= 200]. *)
Inductive FetchEvent :=
| FetchResponse (status : Z) (statusText : string) (elapsed : Z)
| FetchError (elapsed : Z)
| FetchNoAnswer.

(** A [fetch] as Node's delivers it: every response it hands over is a
    final one. *)
Definition final_responses_only (f : string -> FetchEvent) : Prop :=
  forall url st txt e, f url = FetchResponse st txt e -> 200 <= st.

(** The spec's range for a reachable answer: informational (1xx) through
    client error (4xx). *)
Definition informational_through_client_error (st : Z) : bool :=
  (100 <=? st) && (st <? 500).

(** What a socket from [createConnection({host, port})] reports if left
    alone: 'connect' or 'error' after [elapsed] ms, or nothing. *)
Inductive SocketEvent :=
| SockConnect (elapsed : Z)
| SockError (elapsed : Z)
| SockSilent.

(** [lookup host]: after how many ms the DNS lookup Node makes for [host]
    completes (0 when it makes none, as for an IP literal); Node then
    re-arms the socket's idle timer. *)
Record Net := mkNet {
  fetch : string -> FetchEvent;
  connect : string -> Z -> SocketEvent;
  lookup : string -> Z
}.

(** Node's [setTimeout(fn, delay)]: a delay below 1 ms or above
    2^31 - 1 ms is set to 1 ms. *)
Definition js_timer_delay (delay : Z) : Z :=
  if (delay <? 1) || (2147483647 <? delay) then 1 else delay.

(** When [httpPing]'s [setTimeout(() => controller.abort(), timeoutSeconds * 1000)]
    fires. *)
Definition abort_deadline (timeoutSeconds : Z) : Z := js_timer_delay (timeoutSeconds * 1000).

(** [const protocols = isIP ? ['http', 'https'] : ['https', 'http']] *)
Definition httpProtocols (target : string) : list Protocol :=
  if isIP target then [Http; Https] else [Https; Http].

(** The [for (const protocol of protocols)] loop of [httpPing]. Each
    attempt arms the abort timer; an answer arriving at its deadline or
    later loses to the abort. The result carries the wall-clock time spent
    and the URLs fetched. *)
Fixpoint httpPing_loop (f : string -> FetchEvent) (target : string)
  (timeoutSeconds : Z) (ps : list Protocol) (spent : Z) (urls : list string)
  : PingResult.t * Z * list string :=
  match ps with
  | [] => (PingResult.mk false None "No HTTP/HTTPS response", spent, urls)
  | p :: rest =>
      let url := protocol_name p ++ "://" ++ target in
      let urls := (urls ++ [url])%list in
      let deadline := abort_deadline timeoutSeconds in
      let aborted := (PingResult.mk false None "Connection timeout",
                      spent + deadline, urls) in
      match f url with
      | FetchResponse st txt e =>
          if e <? deadline then
            let d := protocol_upper p ++ " " ++ Z_to_dec st ++ " " ++ txt in
            if (200 <=? st) && (st <? 500)
            then (PingResult.mk true (Some e) d, spent + e, urls)
            else (PingResult.mk false None d, spent + e, urls)
          else aborted
      | FetchError e =>
          if e <? deadline
          then httpPing_loop f target timeoutSeconds rest (spent + e) urls
          else aborted
      | FetchNoAnswer => aborted
      end
  end.

Definition httpPing (f : string -> FetchEvent) (target : string) (timeoutSeconds : Z)
  : PingResult.t * Z * list string :=
  httpPing_loop f target timeoutSeconds (httpProtocols target) 0 [].

Definition tcpPorts : list Z :=
  [22; 80; 443; 3389; 5900; 23; 21; 25; 53; 135; 445; 8080; 8443].

(** [ports.join(', ')] *)
Fixpoint join_comma (xs : list Z) : string :=
  match xs with
  | [] => EmptyString
  | [x] => Z_to_dec x
  | x :: r => Z_to_dec x ++ ", " ++ join_comma r
  end.

(** The first event of the one socket [tcpPing] opens ([tryPort(ports[0])]).
    [createConnection] runs [if (options.timeout) socket.setTimeout(options.timeout)]
    with [Math.min(timeoutSeconds * 1000, 2000)] ms: a 0 arms no idle timer;
    otherwise the timer armed at creation is re-armed when a DNS lookup
    completes before it fires. Its 'timeout' comes unless 'connect' or
    'error' came strictly earlier. *)
Inductive TcpEvent := EvConnect (t : Z) | EvError (t : Z) | EvTimeout (t : Z) | EvNothing.

Definition first_socket_event (ev : SocketEvent) (lookupDone : Z) (timeoutSeconds : Z)
  : TcpEvent :=
  let sockTimeout := Z.min (timeoutSeconds * 1000) 2000 in
  let idle := if sockTimeout =? 0 then None
              else Some (if (0 <? lookupDone) && (lookupDone <? sockTimeout)
                         then lookupDone + sockTimeout else sockTimeout) in
  match ev, idle with
  | SockConnect e, Some i => if e <? i then EvConnect e else EvTimeout i
  | SockConnect e, None => EvConnect e
  | SockError e, Some i => if e <? i then EvError e else EvTimeout i
  | SockError e, None => EvError e
  | SockSilent, Some i => EvTimeout i
  | SockSilent, None => EvNothing
  end.

(** [tcpPing]: [None] when the promise does not resolve: it never settles,
    or, for a negative timeout, [socket.setTimeout] throws inside the
    executor and the promise rejects. The fallback timer resolves only
    while [completedAttempts] is 0; a socket event at the same instant is
    taken to run first (its timer was armed first). The 'error' and
    'timeout' handlers resolve only once [completedAttempts === ports.length]. *)
Definition tcpPing (net : Net) (target : string)
  (timeoutSeconds : Z) : option (PingResult.t * Z) :=
  if timeoutSeconds <? 0 then None else
  let port := hd 0 tcpPorts in
  let fallback := js_timer_delay (timeoutSeconds * 1000) in
  let fallback_result := Some (PingResult.mk false None "Connection timeout", fallback) in
  let successfulConnections := 0%nat in
  let completedAttempts := 1%nat in
  let last := Nat.eqb completedAttempts (List.length tcpPorts)
              && Nat.eqb successfulConnections 0 in
  match first_socket_event (connect net target port) (lookup net target) timeoutSeconds with
  | EvConnect e =>
      if e <=? fallback
      then Some (PingResult.mk true (Some e)
                   ("TCP connection successful on port " ++ Z_to_dec port), e)
      else fallback_result
  | EvError e =>
      if e <=? fallback then
        if last then Some (PingResult.mk false None
                     ("No response on common ports (" ++ join_comma tcpPorts ++ ")"), e)
        else None
      else fallback_result
  | EvTimeout e =>
      if e <=? fallback then
        if last then Some (PingResult.mk false None "Connection timeout on all ports", e)
        else None
      else fallback_result
  | EvNothing => fallback_result
  end.

(** [server.ip || server.hostname] *)
Definition probe_target (srv : Server.t) : string :=
  if String.eqb (Server.ip srv) EmptyString then Server.hostname srv else Server.ip srv.

(** [PingService.pingServer]: the result and the wall-clock time until it
    settles, or [None] when it does not resolve. *)
Definition pingServer (net : Net) (srv : Server.t) (timeoutSeconds : Z)
  : option (PingResult.t * Z) :=
  let target := probe_target srv in
  if isLocalIP target then
    match tcpPing net target (Z.min timeoutSeconds 5) with
    | None => None
    | Some (r, e) =>
        if PingResult.success r then Some (r, e)
        else let '(r2, e2, _) := httpPing (fetch net) target (Z.min timeoutSeconds 3) in
             Some (r2, e + e2)
    end
  else
    let '(r, e, _) := httpPing (fetch net) target timeoutSeconds in
    if PingResult.success r then Some (r, e)
    else match tcpPing net target timeoutSeconds with
         | None => None
         | Some (r2, e2) => Some (r2, e + e2)
         end.

Local Close Scope string_scope.

(* ------------------------------------------------------------------ *)
(** * Scenarios used by the statements *)

(** A sequence of [createPingLog] calls, each with its clock value. *)
Fixpoint appendPingLogs (inss : list (InsertPingLog.t * Z)) (s : MemStorage.t)
  : MemStorage.t :=
  match inss with
  | [] => s
  | (ins, now) :: rest => appendPingLogs rest (snd (createPingLog ins now s))
  end.

Definition fresh_store : MemStorage.t := new_MemStorage None true.

Definition sample_insert (sid : Z) : InsertPingLog.t :=
  InsertPingLog.mk sid LogSuccess (Some 12) (Some "HTTPS 200 OK"%string).

Definition newer_or_same (a b : PingLog.t) : Prop :=
  PingLog.timestamp b <= PingLog.timestamp a.

(** The store after one probe record for target 1 has been appended. *)
Definition one_log_store : MemStorage.t :=
  snd (createPingLog (sample_insert 1) 5 fresh_store).

(** A monitored loopback device, created in a fresh store (it gets id 1). *)
Definition loopback_store : MemStorage.t :=
  snd (createServer (InsertServer.mk "router"%string "127.0.0.1"%string None) 0 fresh_store).


(** A network on which a name resolves after 30 ms and its port 22
    stays silent. *)
Definition net_silent_after_lookup : Net :=
  mkNet (fun _ => FetchNoAnswer) (fun _ _ => SockSilent) (fun _ => 30).

(** A network on which the TCP handshake with the loopback device
    completes within the same millisecond. *)
Definition net_instant_connect : Net :=
  mkNet (fun _ => FetchNoAnswer) (fun _ _ => SockConnect 0) (fun _ => 0).

Definition instant_tcp_result : PingResult.t :=
  PingResult.mk true (Some 0) "TCP connection successful on port 22"%string.

(** A public web server whose name resolves in 20 ms, whose two HTTP
    attempts each fail with a network error just before the deadline, and
    whose SSH port accepts. *)
Definition net_slow_errors : Net :=
  mkNet (fun _ => FetchError 9999) (fun _ _ => SockConnect 1999) (fun _ => 20).

Definition public_server : Server.t :=
  new_server 1 (InsertServer.mk "example.com"%string EmptyString None) 0.

Definition protocol_url (target : string) (p : Protocol) : string :=
  (protocol_name p ++ "://" ++ target)%string.

Definition mk_target (id : Z) (st : ServerStatus) (rt : option Z) : Server.t :=
  Server.mk id "host"%string "10.0.0.1"%string None st rt None 0.




(* ------------------------------------------------------------------ *)
(** * Settings, the schedule and the remaining handlers *)

(** The body of [PATCH /api/settings] after [insertSettingsSchema.parse]:
    a [Partial<InsertSettings>], [None] where the key is absent. *)
Module SettingsPatch.
Record t := mk { pingInterval : option Z; timeout : option Z; autoRefresh : option bool }.
End SettingsPatch.

Definition set_settings (st : Settings.t) (s : MemStorage.t) :=
  MemStorage.mk (servers s) (pingLogs s) st (currentServerId s)
    (currentPingLogId s) (dataFile s) (fileWritable s).

(** [updateSettings]: [{ ...this.settings, ...updates }], then [saveData]. *)
Definition updateSettings (p : SettingsPatch.t) (s : MemStorage.t)
  : Settings.t * MemStorage.t :=
  let cur := settings s in
  let st := Settings.mk (Settings.id cur)
              (match SettingsPatch.pingInterval p with Some v => v | None => Settings.pingInterval cur end)
              (match SettingsPatch.timeout p with Some v => v | None => Settings.timeout cur end)
              (match SettingsPatch.autoRefresh p with Some v => v | None => Settings.autoRefresh cur end) in
  (st, saveData (set_settings st s)).

(** The state of the [PingService] instance: the cron job, represented by
    the expression it was scheduled with, and the number of sweeps started
    without being awaited (the initial ping of [startScheduledPing]). *)
Module PingService.
Record t := mk { cronJob : option string; initialSweeps : nat }.
End PingService.

(** [`*/${settings.pingInterval} * * * * *`] *)
Definition cronExpression (pingInterval : Z) : string :=
  ("*/" ++ Z_to_dec pingInterval ++ " * * * * *")%string.

(** [stopScheduledPing], [None] when it throws: the [ScheduledTask] of
    the declared node-cron ^3.0.3 has [start] and [stop] but no [destroy],
    so [this.cronJob.destroy()] raises a TypeError before [this.cronJob]
    is cleared. *)
Definition stopScheduledPing (svc : PingService.t) : option PingService.t :=
  match PingService.cronJob svc with
  | Some _ => None
  | None => Some svc
  end.

Definition startScheduledPing (svc : PingService.t) (s : MemStorage.t) : option PingService.t :=
  match stopScheduledPing svc with
  | None => None
  | Some svc1 =>
      Some (PingService.mk (Some (cronExpression (Settings.pingInterval (getSettings s))))
              (S (PingService.initialSweeps svc1)))
  end.

Definition updateSchedule (svc : PingService.t) (s : MemStorage.t) : option PingService.t :=
  match PingService.cronJob svc with
  | Some _ => startScheduledPing svc s
  | None => Some svc
  end.

(** Responses of the handler of [PATCH /api/settings]. *)
Inductive PatchResponse := PatchOk200 (st : Settings.t) | PatchError500.

(** The handler of [PATCH /api/settings] on a body that passed validation:
    [if (settingsData.pingInterval)] calls [updateSchedule] only for a
    truthy interval; an exception it raises is answered with 500. *)
Definition patchSettingsRoute (p : SettingsPatch.t) (svc : PingService.t) (s : MemStorage.t)
  : PatchResponse * PingService.t * MemStorage.t :=
  let '(st, s1) := updateSettings p s in
  match js_truthy_num (SettingsPatch.pingInterval p) with
  | Some _ =>
      match updateSchedule svc s1 with
      | Some svc1 => (PatchOk200 st, svc1, s1)
      | None => (PatchError500, svc, s1)
      end
  | None => (PatchOk200 st, svc, s1)
  end.

(** Responses of the handler of [DELETE /api/servers/:id]. *)
Inductive DeleteResponse := DeleteNotFound404 | DeleteOk200.

Definition deleteRoute (id : Z) (s : MemStorage.t) : DeleteResponse * MemStorage.t :=
  let '(success, s1) := deleteServer id s in
  (if success then DeleteOk200 else DeleteNotFound404, s1).

(** What the code keeps true of the map: each target is filed under its
    own id, and each id once. *)
Definition store_wf (s : MemStorage.t) : Prop :=
  NoDup (map fst (servers s)) /\ Forall (fun e => Server.id (snd e) = fst e) (servers s).



(** The template string [`${a}.${b}.${c}.${d}`]. *)
Definition dotted_quad (a b c d : Z) : string :=
  (Z_to_dec a ++ "." ++ Z_to_dec b ++ "." ++ Z_to_dec c ++ "." ++ Z_to_dec d)%string.

(* ================================================================== *)
(** * Properties *)

Lemma createPingLog_pingLogs ins now s :
  pingLogs (snd (createPingLog ins now s)) =
  (let logs := pingLogs s ++ [fst (createPingLog ins now s)] in
   if Z.of_nat (List.length logs) >? MAX_PING_LOGS
   then js_slice_neg logs MAX_PING_LOGS else logs).
Proof. reflexivity. Qed.

Lemma createPingLog_length_le ins now s :
  (List.length (pingLogs (snd (createPingLog ins now s))) <= 1000)%nat.
Proof.
  rewrite createPingLog_pingLogs. cbv zeta.
  set (logs := pingLogs s ++ _).
  rewrite Z.gtb_ltb. unfold MAX_PING_LOGS.
  destruct (Z.ltb_spec 1000 (Z.of_nat (List.length logs))) as [E|E].
  - unfold js_slice_neg. rewrite List.length_skipn. lia.
  - lia.
Qed.

Lemma appendPingLogs_length_le inss s :
  (List.length (pingLogs s) <= 1000)%nat ->
  (List.length (pingLogs (appendPingLogs inss s)) <= 1000)%nat.
Proof.
  revert s. induction inss as [|[ins now] rest IH]; intros s H; simpl.
  - exact H.
  - apply IH, createPingLog_length_le.
Qed.

(** C2: the store never holds more than 1000 probe records across any
    sequence of [createPingLog] calls; below the cap a record is appended,
    and at exactly 1000 records appending drops exactly the oldest one
    (the head of the system-wide list) and keeps the rest in order. *)
Theorem ping_log_cap_fifo (s : MemStorage.t) (inss : list (InsertPingLog.t * Z))
  (Hcap : (List.length (pingLogs s) <= 1000)%nat) :
  (List.length (pingLogs (appendPingLogs inss s)) <= 1000)%nat /\
  (forall ins now,
     let '(log, s') := createPingLog ins now s in
     pingLogs s' =
       if (List.length (pingLogs s) =? 1000)%nat
       then tl (pingLogs s) ++ [log]
       else pingLogs s ++ [log]).
Proof.
  split; [now apply appendPingLogs_length_le|].
  intros ins now.
  pose proof (createPingLog_pingLogs ins now s) as E.
  destruct (createPingLog ins now s) as [log s'] eqn:C. simpl in E.
  rewrite E. rewrite List.length_app. simpl. unfold MAX_PING_LOGS.
  destruct (Nat.eqb_spec (List.length (pingLogs s)) 1000) as [H1000|Hlt].
  - rewrite H1000. simpl. unfold js_slice_neg.
    rewrite List.length_app, H1000. simpl.
    destruct (pingLogs s) as [|x r] eqn:L; [simpl in H1000; discriminate|].
    reflexivity.
  - rewrite Z.gtb_ltb.
    destruct (Z.ltb_spec 1000 (Z.of_nat (List.length (pingLogs s) + 1))); [lia|reflexivity].
Qed.

Lemma ping_log_cap_fifo_witness :
  (List.length (pingLogs fresh_store) <= 1000)%nat /\
  (List.length (pingLogs (appendPingLogs [(sample_insert 1, 5%Z); (sample_insert 2, 6%Z)]
                             fresh_store)) <= 1000)%nat.
Proof.
  split; [simpl; lia|].
  apply (ping_log_cap_fifo fresh_store [(sample_insert 1, 5%Z); (sample_insert 2, 6%Z)]).
  simpl; lia.
Defined.

(** C7: [updateServer] on an id absent from the store returns [undefined]
    and leaves the whole store (targets, probe records, settings, counters
    and data file) unchanged; the single-ping route answers 404 for such an
    id without touching the store. *)
Theorem updateServer_unknown_id_noop (id : Z) (p : ServerPatch.t) (probe : Prober)
  (now : Z) (s : MemStorage.t) (Habsent : getServer id s = None) :
  updateServer id p s = (None, s) /\ pingOneRoute id probe now s = (NotFound404, s).
Proof.
  unfold getServer in Habsent. split.
  - unfold updateServer. now rewrite Habsent.
  - unfold pingOneRoute, getServer. now rewrite Habsent.
Qed.

Lemma updateServer_unknown_id_noop_witness :
  getServer 7 fresh_store = None /\
  updateServer 7 (ServerPatch.mk (Some Online) None None) fresh_store = (None, fresh_store) /\
  pingOneRoute 7 (fun _ _ => PingResult.mk true (Some 3) EmptyString) 0 fresh_store
    = (NotFound404, fresh_store).
Proof.
  split; [reflexivity|].
  apply (updateServer_unknown_id_noop 7 (ServerPatch.mk (Some Online) None None)
           (fun _ _ => PingResult.mk true (Some 3) EmptyString) 0 fresh_store).
  reflexivity.
Defined.

Section MapFacts.
Context {V : Type}.

Lemma map_get_isSome (k : Z) (m : list (Z * V)) :
  map_has k m = existsb (fun e => Z.eqb k (fst e)) m.
Proof.
  unfold map_has.
  induction m as [|[k' v] r IH]; simpl; [reflexivity|].
  destruct (Z.eqb k k'); simpl; auto.
Qed.

Lemma map_get_filter_other (k id : Z) (m : list (Z * V)) :
  map_get k (filter (fun e => negb (Z.eqb id (fst e))) m) =
  if Z.eqb k id then None else map_get k m.
Proof.
  induction m as [|[k' v] r IH]; simpl.
  - destruct (Z.eqb k id); reflexivity.
  - destruct (Z.eqb_spec id k') as [->|Hne]; simpl.
    + rewrite IH. destruct (Z.eqb_spec k k'); reflexivity.
    + destruct (Z.eqb_spec k k') as [->|Hk].
      * destruct (Z.eqb_spec k' id); [congruence|reflexivity].
      * exact IH.
Qed.
End MapFacts.

Lemma getPingLogs_depends_on_logs (sid : option Z) (lim : Z) (s s' : MemStorage.t) :
  pingLogs s' = pingLogs s -> getPingLogs sid lim s' = getPingLogs sid lim s.
Proof. intros E. unfold getPingLogs. now rewrite E. Qed.

(** C8: [deleteServer] reports whether the id was present, removes exactly
    that target (every other id reads as before), and leaves the probe
    records, hence every [getPingLogs] answer, unchanged. *)
Theorem deleteServer_frame (id : Z) (s : MemStorage.t) :
  let '(deleted, s') := deleteServer id s in
  deleted = map_has id (servers s) /\
  (forall k, getServer k s' = if Z.eqb k id then None else getServer k s) /\
  pingLogs s' = pingLogs s /\
  (forall sid lim, getPingLogs sid lim s' = getPingLogs sid lim s).
Proof.
  unfold deleteServer, map_delete, getServer, map_has.
  destruct (existsb (fun e => Z.eqb id (fst e)) (servers s)) eqn:Ex.
  - split; [now rewrite <- map_get_isSome in Ex; unfold map_has in Ex|].
    split; [intros k; simpl; apply map_get_filter_other|].
    split; [reflexivity|]. intros sid lim. now apply getPingLogs_depends_on_logs.
  - split; [now rewrite <- map_get_isSome in Ex; unfold map_has in Ex|].
    split; [|split; reflexivity].
    intros k. destruct (Z.eqb_spec k id) as [->|]; [|reflexivity].
    destruct (map_get id (servers s)) eqn:G; [|reflexivity].
    rewrite <- map_get_isSome in Ex. unfold map_has in Ex. now rewrite G in Ex.
Qed.

(** C9 (at [serverId = 0]): [if (serverId)] treats 0 like an omitted
    target id, so asking for the records of target 0 returns the record of
    target 1. *)
Theorem getPingLogs_zero_id_unfiltered :
  List.map PingLog.serverId (getPingLogs (Some 0) 100 one_log_store) = [1].
Proof. reflexivity. Qed.

Lemma insert_desc_In x y l : In y (insert_desc x l) <-> x = y \/ In y l.
Proof.
  induction l as [|z r IH]; simpl; [tauto|].
  destruct (PingLog.timestamp z <=? PingLog.timestamp x); simpl; [tauto|].
  rewrite IH. tauto.
Qed.

Lemma sort_desc_In y l : In y (sort_desc l) <-> In y l.
Proof.
  induction l as [|z r IH]; simpl; [tauto|].
  rewrite insert_desc_In, IH. tauto.
Qed.

Lemma insert_desc_HdRel a x l :
  HdRel newer_or_same a l -> newer_or_same a x -> HdRel newer_or_same a (insert_desc x l).
Proof.
  intros H Hx. destruct l as [|z r]; simpl; [now constructor|].
  destruct (PingLog.timestamp z <=? PingLog.timestamp x); constructor; auto.
  now inversion H.
Qed.

Lemma insert_desc_sorted x l :
  Sorted newer_or_same l -> Sorted newer_or_same (insert_desc x l).
Proof.
  induction l as [|z r IH]; intros H; simpl; [repeat constructor|].
  destruct (Z.leb_spec (PingLog.timestamp z) (PingLog.timestamp x)) as [E|E].
  - constructor; [exact H|constructor; exact E].
  - inversion H as [|? ? Hr Hd]; subst. constructor; [now apply IH|].
    apply insert_desc_HdRel; [exact Hd|]. unfold newer_or_same. lia.
Qed.

Lemma sort_desc_sorted l : Sorted newer_or_same (sort_desc l).
Proof.
  induction l; simpl; [constructor|now apply insert_desc_sorted].
Qed.

Lemma In_firstn_incl {A} (x : A) n l : In x (firstn n l) -> In x l.
Proof. intros H. rewrite <- (firstn_skipn n l). apply in_or_app. now left. Qed.


Lemma firstn_sorted n l : Sorted newer_or_same l -> Sorted newer_or_same (firstn n l).
Proof.
  revert l. induction n as [|n IH]; intros l H; simpl; [constructor|].
  destruct l as [|x r]; [constructor|].
  inversion H as [|? ? Hr Hd]; subst. constructor; [now apply IH|].
  destruct n; simpl; [constructor|]. destruct r; [constructor|].
  inversion Hd; subst. now constructor.
Qed.

(** For a non-zero target id and a non-negative limit, [getPingLogs]
    returns only that target's records, newest first, at most [limit] of
    them. *)
Lemma getPingLogs_nonzero_id_spec (sid lim : Z) (s : MemStorage.t) :
  sid <> 0 -> 0 <= lim ->
  let res := getPingLogs (Some sid) lim s in
  (forall l, In l res -> PingLog.serverId l = sid /\ In l (pingLogs s)) /\
  Sorted newer_or_same res /\
  (List.length res <= Z.to_nat lim)%nat.
Proof.
  intros Hsid Hlim. unfold getPingLogs, js_truthy_num.
  destruct (Z.eqb_spec sid 0) as [|_]; [contradiction|].
  unfold js_slice0.
  set (sorted := sort_desc _).
  destruct (Z.ltb_spec lim 0) as [|_]; [lia|].
  split; [|split].
  - intros l Hin. apply In_firstn_incl in Hin.
    unfold sorted in Hin. apply sort_desc_In, filter_In in Hin.
    destruct Hin as [Hin Heq]. apply Z.eqb_eq in Heq. auto.
  - apply firstn_sorted, sort_desc_sorted.
  - rewrite List.length_firstn. lia.
Qed.

(** C1 (at a 0 ms probe): [pingServer] reports success with
    [responseTime = 0]; both recording paths, the single-ping route and
    [pingAllServers], then store the target as online with
    [responseTime = null], since [result.responseTime || null] drops 0. *)
Theorem online_zero_latency_stored_null :
  pingServer net_instant_connect
    (match getServer 1 loopback_store with Some srv => srv
     | None => new_server 1 (InsertServer.mk EmptyString EmptyString None) 0 end) 10
    = Some (instant_tcp_result, 0) /\
  (match getServer 1 (snd (pingOneRoute 1 (fun _ _ => instant_tcp_result) 50 loopback_store)) with
   | Some srv => Server.status srv = Online /\ Server.responseTime srv = None
   | None => False
   end) /\
  (match getServer 1 (pingAllServers (fun _ _ => instant_tcp_result) (fun _ => 50) loopback_store) with
   | Some srv => Server.status srv = Online /\ Server.responseTime srv = None
   | None => False
   end).
Proof. vm_compute. repeat split. Qed.

(** For a probe that reports a positive latency, the single-ping route
    stores the target online with that latency. *)
Lemma pingOneRoute_positive_latency (id : Z) (r : PingResult.t) (n now : Z)
  (s : MemStorage.t) (srv : Server.t) :
  getServer id s = Some srv -> PingResult.success r = true ->
  PingResult.responseTime r = Some n -> 0 < n ->
  fst (pingOneRoute id (fun _ _ => r) now s) = Json200 (Some (apply_patch srv
        (ServerPatch.mk (Some Online) (Some (Some n)) (Some (Some now))))).
Proof.
  intros G Hs Hr Hn. unfold pingOneRoute. rewrite G.
  unfold updateServer. unfold getServer in G. rewrite G.
  destruct (createPingLog _ _ _). simpl.
  unfold status_patch, or_null_num. rewrite Hs, Hr.
  destruct n; [lia| |lia]. reflexivity.
Qed.

Lemma js_timer_delay_bounds (d : Z) :
  1 <= js_timer_delay d /\ (1 <= d -> js_timer_delay d <= d).
Proof.
  unfold js_timer_delay.
  destruct (Z.ltb_spec d 1), (Z.ltb_spec 2147483647 d); simpl; lia.
Qed.

Lemma abort_deadline_le (T : Z) : 0 < T -> abort_deadline T <= T * 1000.
Proof. intros HT. apply js_timer_delay_bounds. lia. Qed.

Lemma httpPing_loop_time f target T ps spent urls :
  snd (fst (httpPing_loop f target T ps spent urls))
    <= spent + Z.of_nat (List.length ps) * abort_deadline T.
Proof.
  revert spent urls.
  assert (0 <= abort_deadline T) by (pose proof (js_timer_delay_bounds (T * 1000)); unfold abort_deadline; lia).
  induction ps as [|p rest IH]; intros spent urls; [simpl; lia|].
  change (List.length (p :: rest)) with (S (List.length rest)).
  rewrite Nat2Z.inj_succ.
  assert (0 <= Z.of_nat (List.length rest) * abort_deadline T) by nia.
  cbn [httpPing_loop].
  destruct (f _) as [st txt e|e|].
  - destruct (Z.ltb_spec e (abort_deadline T)); simpl; [|nia].
    destruct ((200 <=? st) && (st <? 500)); simpl; nia.
  - destruct (Z.ltb_spec e (abort_deadline T)); [|simpl; nia].
    specialize (IH (spent + e) (urls ++ [protocol_name p ++ "://" ++ target]%string)). nia.
  - simpl. nia.
Qed.

Lemma httpPing_time f target T :
  0 < T -> snd (fst (httpPing f target T)) <= 2 * (T * 1000).
Proof.
  intros HT. unfold httpPing.
  pose proof (httpPing_loop_time f target T (httpProtocols target) 0 []) as H.
  pose proof (abort_deadline_le T HT).
  unfold httpProtocols in *. destruct (isIP target); cbn [List.length Z.of_nat Pos.of_succ_nat Pos.succ] in H; lia.
Qed.

Lemma tcpPing_time net target T r e :
  tcpPing net target T = Some (r, e) -> e <= js_timer_delay (T * 1000).
Proof.
  unfold tcpPing. destruct (T <? 0); [discriminate|]. simpl.
  destruct (first_socket_event _ _ _) as [t|t|t|];
    try destruct (Z.leb_spec t (js_timer_delay (T * 1000))) as [Hle|Hgt]; intros Hr;
    try destruct (Nat.eqb _ _ && Nat.eqb _ _); inversion Hr; subst; lia.
Qed.

(** C3, as the code budgets it: sub-timeouts are not drawn from a shared
    budget. When [pingServer] settles, it has taken at most
    3 x timeoutSeconds (two HTTP attempts of timeoutSeconds each, then a
    TCP attempt of timeoutSeconds) for targets outside the private
    prefixes, and at most min(timeoutSeconds, 5) + 2 x min(timeoutSeconds, 3)
    seconds for private ones (TCP first, then two HTTP attempts). *)
Theorem pingServer_settled_time_bound (net : Net) (srv : Server.t) (T : Z)
  (r : PingResult.t) (e : Z) (HT : 0 < T)
  (Hsettled : pingServer net srv T = Some (r, e)) :
  e <= (if isLocalIP (probe_target srv)
        then (Z.min T 5 + 2 * Z.min T 3) * 1000
        else 3 * T * 1000).
Proof.
  unfold pingServer in Hsettled.
  destruct (isLocalIP (probe_target srv)).
  - destruct (tcpPing _ _ _) as [[r1 e1]|] eqn:Tc; [|discriminate].
    apply tcpPing_time in Tc.
    pose proof (proj2 (js_timer_delay_bounds (Z.min T 5 * 1000)) ltac:(lia)).
    destruct (PingResult.success r1).
    + inversion Hsettled; subst. lia.
    + pose proof (httpPing_time (fetch net) (probe_target srv) (Z.min T 3)) as Hh.
      destruct (httpPing _ _ _) as [[r2 e2] u2]. cbn [fst snd] in Hh.
      inversion Hsettled; subst. specialize (Hh ltac:(lia)). lia.
  - pose proof (httpPing_time (fetch net) (probe_target srv) T) as Hh.
    destruct (httpPing _ _ _) as [[r1 e1] u1]. cbn [fst snd] in Hh. specialize (Hh ltac:(lia)).
    destruct (PingResult.success r1).
    + inversion Hsettled; subst. lia.
    + destruct (tcpPing _ _ _) as [[r2 e2]|] eqn:Tc; [|discriminate].
      apply tcpPing_time in Tc.
      pose proof (proj2 (js_timer_delay_bounds (T * 1000)) ltac:(lia)).
      inversion Hsettled; subst. lia.
Qed.

Lemma pingServer_settled_time_bound_witness :
  pingServer net_slow_errors public_server 10 =
    Some (PingResult.mk true (Some 1999) "TCP connection successful on port 22"%string, 21997) /\
  21997 <= 3 * 10 * 1000.
Proof.
  split; [vm_compute; reflexivity|].
  pose proof (pingServer_settled_time_bound net_slow_errors public_server 10
    (PingResult.mk true (Some 1999) "TCP connection successful on port 22"%string) 21997
    ltac:(lia) ltac:(vm_compute; reflexivity)) as H.
  exact H.
Defined.

(** C3 counterexample: with [timeoutSeconds = 10] the probe above settles
    after 21.997 s, more than 10 s plus a 1 s grace margin. *)
Lemma pingServer_exceeds_budget :
  exists r, pingServer net_slow_errors public_server 10 = Some (r, 21997) /\
            21997 > 10 * 1000 + 1000.
Proof. eexists. split; [vm_compute; reflexivity|lia]. Qed.

(** The fallback [tcpPing] never settles once its single socket reports an
    error (here a refused connection after 3 ms): the handlers wait for
    all 13 ports although only [ports[0]] is tried, and the fallback timer
    only fires while no attempt has completed. *)
Lemma pingServer_refused_never_settles :
  pingServer (mkNet (fun _ => FetchResponse 503 "Service Unavailable"%string 40)
                    (fun _ _ => SockError 3) (fun _ => 20)) public_server 10 = None.
Proof. vm_compute. reflexivity. Qed.

Lemma httpPing_loop_two f target T p q :
  snd (httpPing_loop f target T [p; q] 0 []) =
  match f (protocol_url target p) with
  | FetchError e => if e <? abort_deadline T
                    then [protocol_url target p; protocol_url target q]
                    else [protocol_url target p]
  | _ => [protocol_url target p]
  end.
Proof.
  unfold protocol_url. cbn [httpPing_loop]. cbv zeta.
  destruct (f (protocol_name p ++ "://" ++ target)%string) as [st txt e|e|].
  - destruct (e <? abort_deadline T); [destruct ((200 <=? st) && (st <? 500))|]; reflexivity.
  - destruct (e <? abort_deadline T); [|reflexivity].
    cbn [httpPing_loop]. cbv zeta.
    destruct (f (protocol_name q ++ "://" ++ target)%string) as [st' txt' e'|e'|].
    + destruct (e' <? abort_deadline T); [destruct ((200 <=? st') && (st' <? 500))|]; reflexivity.
    + destruct (e' <? abort_deadline T); reflexivity.
    + reflexivity.
  - reflexivity.
Qed.

(** C4, as the code orders protocols: the primary check requests https
    then http for targets that are not IPv4 dotted-quad literals, and http
    then https for every IPv4 literal, private or public. It fetches the
    first URL always, and the second exactly when the first failed with a
    network error before the abort deadline. *)
Theorem httpPing_protocol_order (f : string -> FetchEvent) (target : string) (T : Z) :
  let urls := snd (httpPing f target T) in
  let order := if isIP target
               then [protocol_url target Http; protocol_url target Https]
               else [protocol_url target Https; protocol_url target Http] in
  (1 <= List.length urls <= 2)%nat /\ urls = firstn (List.length urls) order /\
  (List.length urls = 2%nat <->
   exists e, f (hd EmptyString order) = FetchError e /\ e < abort_deadline T).
Proof.
  unfold httpPing, httpProtocols. cbv zeta.
  destruct (isIP target); rewrite httpPing_loop_two; cbn [hd];
    destruct (f (protocol_url target _)) as [st txt e|e|];
    try (destruct (Z.ltb_spec e (abort_deadline T)));
    cbn [List.length firstn];
    (split; [lia|split; [reflexivity|]]);
    split; try (intros Hn; discriminate Hn);
    try (intros [e' [Hf _]]; discriminate Hf);
    try (intros _; exists e; split; [reflexivity|assumption]);
    intros [e' [Hf Hlt]]; injection Hf as <-; lia.
Qed.

(** The classification behind that order. *)
Lemma isIP_examples :
  isIP "8.8.8.8"%string = true /\ isIP "192.168.1.10"%string = true /\ isIP "10.0.0.1"%string = true /\
  isIP "example.com"%string = false /\ isIP "localhost"%string = false /\ isIP "300.1.1.1"%string = false.
Proof. vm_compute. repeat split. Qed.

(** C4 counterexample: the public address 8.8.8.8 is not in a private
    range, yet its first request is plain http. *)
Lemma httpPing_public_ip_http_first :
  isLocalIP "8.8.8.8"%string = false /\
  snd (httpPing (fun _ => FetchResponse 200 "OK"%string 5) "8.8.8.8"%string 10) = ["http://8.8.8.8"%string].
Proof. vm_compute. split; reflexivity. Qed.

Lemma httpPing_loop_response f target T pre p post st txt e spent urls :
  (forall q, In q pre -> exists e', f (protocol_url target q) = FetchError e' /\ e' < abort_deadline T) ->
  f (protocol_url target p) = FetchResponse st txt e -> e < abort_deadline T ->
  PingResult.success (fst (fst (httpPing_loop f target T (pre ++ p :: post) spent urls)))
    = (200 <=? st) && (st <? 500).
Proof.
  revert spent urls. induction pre as [|q pre' IH]; intros spent urls Hpre Hp He;
    cbn [app httpPing_loop]; cbv zeta.
  - unfold protocol_url in Hp. rewrite Hp.
    destruct (Z.ltb_spec e (abort_deadline T)); [|lia].
    destruct ((200 <=? st) && (st <? 500)); reflexivity.
  - destruct (Hpre q (or_introl eq_refl)) as [e' [Hq He']].
    unfold protocol_url in Hq. rewrite Hq.
    destruct (Z.ltb_spec e' (abort_deadline T)); [|lia].
    apply IH; auto. intros q' Hin. apply Hpre. now right.
Qed.

(** C5: when the primary check acts on an HTTP response (the protocols
    before it having failed with network errors, and the response arriving
    before the deadline), its outcome is success exactly when the status
    lies in the informational-through-client-error range, and failure
    otherwise. The code tests [200 <= status < 500]; since Node's fetch
    delivers final responses only, the two ranges agree on every response
    the check can see. *)
Theorem httpPing_response_outcome (f : string -> FetchEvent) (target : string) (T : Z)
  (pre : list Protocol) (p : Protocol) (post : list Protocol)
  (st : Z) (txt : string) (e : Z)
  (Hnode : final_responses_only f)
  (Horder : httpProtocols target = pre ++ p :: post)
  (Hpre : forall q, In q pre ->
          exists e', f (protocol_url target q) = FetchError e' /\ e' < abort_deadline T)
  (Hresp : f (protocol_url target p) = FetchResponse st txt e)
  (Hintime : e < abort_deadline T) :
  PingResult.success (fst (fst (httpPing f target T))) = informational_through_client_error st /\
  PingResult.success (fst (fst (httpPing f target T))) = (200 <=? st) && (st <? 500).
Proof.
  assert (Hcode : PingResult.success (fst (fst (httpPing f target T))) = (200 <=? st) && (st <? 500)).
  { unfold httpPing. rewrite Horder. now apply httpPing_loop_response with (txt := txt) (e := e). }
  split; [|exact Hcode].
  rewrite Hcode. pose proof (Hnode _ _ _ _ Hresp) as H200.
  unfold informational_through_client_error.
  destruct (Z.leb_spec 200 st), (Z.leb_spec 100 st); [reflexivity|lia|lia|lia].
Qed.

Lemma httpPing_response_outcome_witness :
  final_responses_only (fun _ => FetchResponse 404 "Not Found"%string 30) /\
  httpProtocols "example.com"%string = [] ++ Https :: [Http] /\
  PingResult.success (fst (fst (httpPing (fun _ => FetchResponse 404 "Not Found"%string 30)
                                 "example.com"%string 10))) = informational_through_client_error 404 /\
  PingResult.success (fst (fst (httpPing (fun _ => FetchResponse 404 "Not Found"%string 30)
                                 "example.com"%string 10))) = (200 <=? 404) && (404 <? 500).
Proof.
  assert (Hn : final_responses_only (fun _ => FetchResponse 404 "Not Found"%string 30)).
  { intros u st txt e H. injection H as <- _ _. lia. }
  split; [exact Hn|]. split; [reflexivity|].
  apply (httpPing_response_outcome (fun _ => FetchResponse 404 "Not Found"%string 30) "example.com"%string 10
           [] Https [Http] 404 "Not Found"%string 30); [exact Hn|reflexivity| |reflexivity|].
  - intros q [].
  - vm_compute. reflexivity.
Defined.

Lemma fold_sum_shift (g : Server.t -> Z) l a :
  fold_left (fun acc x => acc + g x) l a = a + fold_left (fun acc x => acc + g x) l 0.
Proof.
  revert a. induction l as [|x r IH]; intros a; cbn [fold_left]; [lia|].
  rewrite (IH (a + g x)), (IH (0 + g x)). lia.
Qed.

Lemma fold_sum_lower (g : Server.t -> Z) l :
  (forall x, In x l -> 1 <= g x) ->
  Z.of_nat (List.length l) <= fold_left (fun acc x => acc + g x) l 0.
Proof.
  induction l as [|x r IH]; intros H; cbn [fold_left List.length]; [lia|].
  rewrite fold_sum_shift. rewrite Nat2Z.inj_succ.
  assert (1 <= g x) by (apply H; now left).
  assert (Z.of_nat (List.length r) <= fold_left (fun acc x => acc + g x) r 0)
    by (apply IH; intros y Hy; apply H; now right).
  lia.
Qed.

Lemma js_round_div_bounds p q :
  0 < q -> 2 * q * js_round_div p q - q <= 2 * p < 2 * q * js_round_div p q + q.
Proof.
  intros Hq. unfold js_round_div.
  pose proof (Z.div_mod (2 * p + q) (2 * q) ltac:(lia)) as Hd.
  pose proof (Z.mod_pos_bound (2 * p + q) (2 * q) ltac:(lia)) as Hm.
  lia.
Qed.

(** C6, as the code computes it: the three counts are the numbers of
    online targets, offline targets and all targets; [avgResponse] is
    ["N/A"] exactly when no target is online with a truthy (non-zero)
    latency, and otherwise [`${r}ms`] where r is the mean of those
    latencies rounded half up by [Math.round] (so 2qr - q <= 2p < 2qr + q
    for q such targets with latency sum p). On the empty set the result is
    0, 0, 0, N/A; on [online@50, online@150, offline] it is 2, 1, 3, 100ms. *)
Theorem computeStats_rounded_mean (srvs : list Server.t)
  (Hnonneg : forall srv n, In srv srvs -> Server.responseTime srv = Some n -> 0 <= n) :
  let st := computeStats srvs in
  let onl := filter online_with_time srvs in
  let q := Z.of_nat (List.length onl) in
  let p := fold_left (fun acc x => acc + time_or_0 x) onl 0 in
  Stats.onlineCount st = Z.of_nat (List.length (filter (is_status Online) srvs)) /\
  Stats.offlineCount st = Z.of_nat (List.length (filter (is_status Offline) srvs)) /\
  Stats.totalCount st = Z.of_nat (List.length srvs) /\
  (onl = [] -> Stats.avgResponse st = AvgNA) /\
  (onl <> [] -> exists r, Stats.avgResponse st = AvgMs r /\
                          2 * q * r - q <= 2 * p < 2 * q * r + q) /\
  computeStats [] = Stats.mk 0 0 0 AvgNA /\
  computeStats [mk_target 1 Online (Some 50); mk_target 2 Online (Some 150);
                mk_target 3 Offline None] = Stats.mk 2 1 3 (AvgMs 100).
Proof.
  cbv zeta. unfold computeStats. cbv zeta.
  set (onl := filter online_with_time srvs).
  set (p := fold_left (fun acc x => acc + time_or_0 x) onl 0).
  split; [reflexivity|]. split; [reflexivity|]. split; [reflexivity|].
  split; [|split; [|split; reflexivity]].
  - intros E. rewrite E. reflexivity.
  - intros Hne.
    assert (Hq : 0 < Z.of_nat (List.length onl)).
    { destruct onl; [congruence|simpl; lia]. }
    assert (Hp : Z.of_nat (List.length onl) <= p).
    { apply fold_sum_lower. intros x Hx.
      unfold onl in Hx. apply filter_In in Hx as [Hin Hon].
      unfold online_with_time in Hon. apply andb_prop in Hon as [_ Hrt].
      unfold time_or_0. destruct (Server.responseTime x) as [n|] eqn:R; [|discriminate].
      specialize (Hnonneg x n Hin R). apply negb_true_iff, Z.eqb_neq in Hrt. lia. }
    pose proof (js_round_div_bounds p (Z.of_nat (List.length onl)) Hq) as Hb.
    destruct (Z.gtb_spec (Z.of_nat (List.length onl)) 0) as [_|]; [|lia].
    destruct (Z.gtb_spec (js_round_div p (Z.of_nat (List.length onl))) 0) as [Hr|Hr].
    + eexists. split; [reflexivity|]. exact Hb.
    + exfalso. nia.
Qed.

Lemma computeStats_rounded_mean_witness :
  (forall srv n, In srv [mk_target 1 Online (Some 1); mk_target 2 Online (Some 2)] ->
     Server.responseTime srv = Some n -> 0 <= n) /\
  Stats.avgResponse (computeStats [mk_target 1 Online (Some 1); mk_target 2 Online (Some 2)])
    = AvgMs 2.
Proof.
  assert (H : forall srv n, In srv [mk_target 1 Online (Some 1); mk_target 2 Online (Some 2)] ->
     Server.responseTime srv = Some n -> 0 <= n).
  { intros srv n [<-|[<-|[]]]; simpl; intros E; inversion E; lia. }
  split; [exact H|].
  destruct (computeStats_rounded_mean
              [mk_target 1 Online (Some 1); mk_target 2 Online (Some 2)] H)
    as [_ [_ [_ [_ [Hne _]]]]].
  destruct (Hne ltac:(vm_compute; discriminate)) as [r [E _]].
  rewrite E. vm_compute in E. now inversion E.
Defined.

(** C6 counterexample: for two online targets at 1 ms and 2 ms the mean
    is 1.5 ms, but the reported average is 2 ms. *)
Lemma computeStats_mean_is_rounded :
  Stats.avgResponse (computeStats [mk_target 1 Online (Some 1); mk_target 2 Online (Some 2)])
    = AvgMs 2 /\ 2 * 2 <> 1 + 2.
Proof. split; [vm_compute; reflexivity|lia]. Qed.

Section MapValues.
Context {V : Type}.



End MapValues.













(* ------------------------------------------------------------------ *)
(** * The map invariant, persistence, and the remaining operations *)

Section MapWf.
Context {V : Type}.

Lemma map_get_set (k id : Z) (v : V) (m : list (Z * V)) :
  map_get k (map_set id v m) = if Z.eqb k id then Some v else map_get k m.
Proof.
  induction m as [|[k' v'] r IH]; simpl.
  - destruct (Z.eqb k id); reflexivity.
  - destruct (Z.eqb_spec id k') as [->|Hne]; simpl.
    + destruct (Z.eqb k k'); reflexivity.
    + rewrite IH. destruct (Z.eqb_spec k k') as [->|]; [|reflexivity].
      destruct (Z.eqb_spec k' id); [congruence|reflexivity].
Qed.

Lemma map_set_keys_present (k : Z) (v : V) (m : list (Z * V)) :
  In k (map fst m) -> map fst (map_set k v m) = map fst m.
Proof.
  induction m as [|[k' v'] r IH]; simpl; [intros []|].
  intros H. destruct (Z.eqb_spec k k') as [->|Hne]; simpl; [reflexivity|].
  rewrite IH; [reflexivity|]. destruct H as [H|H]; [congruence|exact H].
Qed.

Lemma map_set_keys_fresh (k : Z) (v : V) (m : list (Z * V)) :
  ~ In k (map fst m) -> map_set k v m = m ++ [(k, v)].
Proof.
  induction m as [|[k' v'] r IH]; simpl; [reflexivity|].
  intros H. destruct (Z.eqb_spec k k') as [->|Hne]; [exfalso; auto|].
  rewrite IH; [reflexivity|]. auto.
Qed.

Lemma map_set_NoDup (k : Z) (v : V) (m : list (Z * V)) :
  NoDup (map fst m) -> NoDup (map fst (map_set k v m)).
Proof.
  intros H. destruct (in_dec Z.eq_dec k (map fst m)) as [Hin|Hout].
  - now rewrite map_set_keys_present.
  - rewrite map_set_keys_fresh by exact Hout. rewrite map_app. simpl.
    apply NoDup_app; [exact H|constructor; [intros []|constructor]|].
    intros a Ha [<-|[]]. contradiction.
Qed.

Lemma map_set_Forall (P : Z * V -> Prop) (k : Z) (v : V) (m : list (Z * V)) :
  P (k, v) -> Forall P m -> Forall P (map_set k v m).
Proof.
  intros Hp. induction m as [|[k' v'] r IH]; simpl; intros Hm; [constructor; auto|].
  inversion Hm; subst.
  destruct (Z.eqb k k'); constructor; auto.
Qed.

Lemma map_get_In (k : Z) (v : V) (m : list (Z * V)) :
  map_get k m = Some v -> In (k, v) m.
Proof.
  induction m as [|[k' v'] r IH]; simpl; [discriminate|].
  destruct (Z.eqb_spec k k') as [->|]; [intros E; inversion E; now left|].
  intros H; right; auto.
Qed.

Lemma In_map_get (k : Z) (v : V) (m : list (Z * V)) :
  NoDup (map fst m) -> In (k, v) m -> map_get k m = Some v.
Proof.
  induction m as [|[k' v'] r IH]; simpl; [intros _ []|].
  intros Hnd H. inversion Hnd as [|? ? Hnot Hnd']; subst.
  destruct H as [E|H].
  - inversion E; subst. now rewrite Z.eqb_refl.
  - destruct (Z.eqb_spec k k') as [->|]; [|auto].
    exfalso. apply Hnot. change k' with (fst (k', v)). now apply in_map.
Qed.

Lemma map_get_None_notin (k : Z) (m : list (Z * V)) :
  map_get k m = None <-> ~ In k (map fst m).
Proof.
  induction m as [|[k' v'] r IH]; simpl; [tauto|].
  destruct (Z.eqb_spec k k') as [->|Hne];
    [split; [discriminate|intros H; exfalso; apply H; now left]|].
  rewrite IH. intuition.
Qed.

Lemma map_has_In (k : Z) (m : list (Z * V)) :
  map_has k m = true <-> In k (map fst m).
Proof.
  unfold map_has. pose proof (map_get_None_notin k m) as H.
  destruct (map_get k m);
    [|split; [discriminate|intros Hin; exfalso; exact (proj1 H eq_refl Hin)]].
  split; [intros _|reflexivity].
  destruct (in_dec Z.eq_dec k (map fst m)); [assumption|].
  apply H in n. discriminate.
Qed.
End MapWf.


Lemma loadData_wf (file : option DataFile.t) (w : bool) : store_wf (new_MemStorage file w).
Proof.
  unfold new_MemStorage, loadData, initial_storage, store_wf. simpl.
  destruct file as [d|]; simpl; [|split; constructor].
  assert (G : forall l (m : list (Z * Server.t)),
             NoDup (map fst m) /\ Forall (fun e => Server.id (snd e) = fst e) m ->
             NoDup (map fst (fold_left (fun m (srv : Server.t) => map_set (Server.id srv) srv m) l m)) /\
             Forall (fun e => Server.id (snd e) = fst e)
               (fold_left (fun m (srv : Server.t) => map_set (Server.id srv) srv m) l m)).
  { induction l as [|x r IH]; intros m [Hn Hf]; simpl; [auto|].
    apply IH. split; [now apply map_set_NoDup|].
    apply map_set_Forall; [reflexivity|exact Hf]. }
  apply G. split; constructor.
Qed.

Lemma store_wf_same_servers (s s' : MemStorage.t) :
  servers s' = servers s -> store_wf s -> store_wf s'.
Proof. unfold store_wf. intros ->. exact id. Qed.

Lemma map_set_wf (k : Z) (v : Server.t) (m : list (Z * Server.t)) :
  Server.id v = k ->
  NoDup (map fst m) /\ Forall (fun e => Server.id (snd e) = fst e) m ->
  NoDup (map fst (map_set k v m)) /\
  Forall (fun e => Server.id (snd e) = fst e) (map_set k v m).
Proof.
  intros Hk [Hn Hf]. split; [now apply map_set_NoDup|].
  now apply map_set_Forall.
Qed.

Lemma filter_wf (f : Z * Server.t -> bool) (m : list (Z * Server.t)) :
  NoDup (map fst m) /\ Forall (fun e => Server.id (snd e) = fst e) m ->
  NoDup (map fst (filter f m)) /\
  Forall (fun e => Server.id (snd e) = fst e) (filter f m).
Proof.
  induction m as [|e r IH]; simpl; intros [Hn Hf]; [split; constructor|].
  inversion Hn as [|? ? Hnot Hn']; subst. inversion Hf; subst.
  destruct IH as [IH1 IH2]; [split; assumption|].
  destruct (f e); simpl; [|split; assumption].
  split; constructor; auto.
  intros Hin. apply Hnot. apply in_map_iff in Hin as [e' [E Hin]].
  apply filter_In in Hin as [Hin _]. rewrite <- E. now apply in_map.
Qed.

Lemma updateServer_servers (id : Z) (p : ServerPatch.t) (s : MemStorage.t) :
  servers (snd (updateServer id p s)) =
  match map_get id (servers s) with
  | Some srv => map_set id (apply_patch srv p) (servers s)
  | None => servers s
  end.
Proof. unfold updateServer. destruct (map_get id (servers s)); reflexivity. Qed.

Lemma createPingLog_servers (ins : InsertPingLog.t) (now : Z) (s : MemStorage.t) :
  servers (snd (createPingLog ins now s)) = servers s /\
  settings (snd (createPingLog ins now s)) = settings s.
Proof. split; reflexivity. Qed.

Lemma updateServer_wf (id : Z) (p : ServerPatch.t) (s : MemStorage.t) :
  store_wf s -> store_wf (snd (updateServer id p s)).
Proof.
  intros Hw. unfold store_wf. rewrite updateServer_servers.
  destruct (map_get id (servers s)) as [srv|] eqn:G; [|exact Hw].
  apply map_set_wf; [|exact Hw]. simpl.
  destruct Hw as [_ Hf]. apply map_get_In in G.
  rewrite Forall_forall in Hf. exact (Hf _ G).
Qed.

Lemma createServers_loop_wf (inss : list InsertServer.t) (now : Z) (s : MemStorage.t) :
  store_wf s -> store_wf (snd (createServers_loop inss now s)).
Proof.
  revert s. induction inss as [|ins rest IH]; intros s Hw; simpl; [exact Hw|].
  specialize (IH (set_servers (map_set (currentServerId s)
                 (new_server (currentServerId s) ins now) (servers s))
                 (set_currentServerId (currentServerId s + 1) s))).
  destruct (createServers_loop rest now _) as [created s3]. simpl in *.
  apply IH. unfold store_wf. simpl. now apply map_set_wf.
Qed.

Lemma pingAll_loop_wf (probe : Prober) (T : Z) (clock : nat -> Z) (i : nat)
  (l : list Server.t) (s : MemStorage.t) :
  store_wf s -> store_wf (pingAll_loop probe T clock i l s).
Proof.
  revert s i. induction l as [|srv rest IH]; intros s i Hw; cbn [pingAll_loop]; [exact Hw|].
  pose proof (updateServer_wf (Server.id srv) (status_patch (probe srv T) (clock (2 * i)%nat)) s Hw) as H1.
  destruct (updateServer _ _ s) as [u s1]. simpl in H1.
  pose proof (createPingLog_servers (log_insert (Server.id srv) (probe srv T)) (clock (S (2 * i))) s1) as [E _].
  destruct (createPingLog _ _ s1) as [lg s2]. simpl in E.
  apply IH. exact (store_wf_same_servers _ _ E H1).
Qed.





(** X1: every target is filed under its own id and each id once: a loaded
    store has this shape, and every operation of the store, the sweep and
    the single-ping handler keep it. *)
Theorem store_wf_invariant :
  (forall file w, store_wf (new_MemStorage file w)) /\
  (forall s, store_wf s ->
     (forall ins now, store_wf (snd (createServer ins now s))) /\
     (forall inss now, store_wf (snd (createServers inss now s))) /\
     (forall id p, store_wf (snd (updateServer id p s))) /\
     (forall id, store_wf (snd (deleteServer id s))) /\
     (forall ins now, store_wf (snd (createPingLog ins now s))) /\
     (forall p, store_wf (snd (updateSettings p s))) /\
     (forall probe clock, store_wf (pingAllServers probe clock s)) /\
     (forall id probe now, store_wf (snd (pingOneRoute id probe now s)))).
Proof.
  split; [exact loadData_wf|]. intros s Hw.
  split; [|split; [|split; [|split; [|split; [|split; [|split]]]]]].
  - intros ins now. unfold store_wf. simpl. now apply map_set_wf.
  - intros inss now. unfold createServers.
    pose proof (createServers_loop_wf inss now s Hw) as H.
    destruct (createServers_loop inss now s) as [c s1]. exact H.
  - intros id p. now apply updateServer_wf.
  - intros id. unfold deleteServer, map_delete.
    destruct (existsb _ _); [|exact Hw]. unfold store_wf. simpl. now apply filter_wf.
  - intros ins now. exact (store_wf_same_servers _ _ (proj1 (createPingLog_servers ins now s)) Hw).
  - intros p. exact Hw.
  - intros probe clock. now apply pingAll_loop_wf.
  - intros id probe now. unfold pingOneRoute.
    destruct (getServer id s) as [srv|]; [|exact Hw].
    pose proof (updateServer_wf id (status_patch (probe srv (Settings.timeout (getSettings s))) now) s Hw) as H1.
    destruct (updateServer _ _ s) as [u s1]. simpl in H1.
    pose proof (createPingLog_servers (log_insert id (probe srv (Settings.timeout (getSettings s)))) now s1) as [E _].
    destruct (createPingLog _ now s1) as [lg s2]. simpl in E |- *.
    exact (store_wf_same_servers _ _ E H1).
Qed.

Lemma store_wf_invariant_witness :
  store_wf fresh_store /\ store_wf loopback_store.
Proof.
  destruct store_wf_invariant as [Hload Hstep].
  assert (H0 : store_wf fresh_store) by apply (Hload None true).
  split; [exact H0|].
  destruct (Hstep fresh_store H0) as [Hc _].
  apply (Hc (InsertServer.mk "router"%string "127.0.0.1"%string None) 0).
Defined.



Lemma createServers_loop_spec (inss : list InsertServer.t) (now : Z) (s : MemStorage.t) :
  let '(created, s') := createServers_loop inss now s in
  map Server.id created =
    map (fun i => currentServerId s + Z.of_nat i) (seq 0 (List.length inss)) /\
  map Server.hostname created = map InsertServer.hostname inss /\
  map Server.ip created = map InsertServer.ip inss /\
  Forall (fun srv => Server.status srv = Unknown /\ Server.responseTime srv = None /\
                     Server.lastPing srv = None) created /\
  currentServerId s' = currentServerId s + Z.of_nat (List.length inss) /\
  (forall k, k < currentServerId s \/ currentServerId s + Z.of_nat (List.length inss) <= k ->
     map_get k (servers s') = map_get k (servers s)) /\
  (forall srv, In srv created -> map_get (Server.id srv) (servers s') = Some srv) /\
  pingLogs s' = pingLogs s /\ settings s' = settings s.
Proof.
  revert s. induction inss as [|ins rest IH]; intros s; simpl.
  - repeat split; try lia; try constructor; try (intros ? []); intros; reflexivity.
  - set (cur := currentServerId s).
    set (s2 := set_servers (map_set cur (new_server cur ins now) (servers s))
                 (set_currentServerId (cur + 1) s)).
    specialize (IH s2).
    destruct (createServers_loop rest now s2) as [created s3].
    destruct IH as [Hid [Hh [Hip [Hf [Hcur [Hout [Hin [Hl Hs]]]]]]]].
    simpl in Hcur, Hout, Hl, Hs.
    split.
    { simpl. f_equal; [lia|]. rewrite Hid, <- seq_shift, map_map.
      apply map_ext. intros i. unfold s2. simpl. lia. }
    split; [simpl; now f_equal|].
    split; [simpl; now f_equal|].
    split; [constructor; [simpl; repeat split|exact Hf]|].
    split; [lia|].
    split.
    { intros k Hk. rewrite Hout by lia. simpl. rewrite map_get_set.
      destruct (Z.eqb_spec k cur); [lia|reflexivity]. }
    split; [|split; assumption].
    intros srv [<-|H]; [|now apply Hin].
    simpl. rewrite Hout by lia. simpl. rewrite map_get_set, Z.eqb_refl. reflexivity.
Qed.

(** X4: a bulk import ([createServers]) hands out consecutive ids from the
    counter, one per submitted target and in submission order, each created
    unknown and never probed; each is stored under its id, ids outside the
    new range read as before, and the probe records are untouched. *)
Theorem createServers_sequential_ids (inss : list InsertServer.t) (now : Z) (s : MemStorage.t) :
  let '(created, s') := createServers inss now s in
  map Server.id created =
    map (fun i => currentServerId s + Z.of_nat i) (seq 0 (List.length inss)) /\
  map Server.hostname created = map InsertServer.hostname inss /\
  Forall (fun srv => Server.status srv = Unknown /\ Server.responseTime srv = None /\
                     Server.lastPing srv = None) created /\
  currentServerId s' = currentServerId s + Z.of_nat (List.length inss) /\
  (forall srv, In srv created -> getServer (Server.id srv) s' = Some srv) /\
  (forall k, k < currentServerId s \/ currentServerId s + Z.of_nat (List.length inss) <= k ->
     getServer k s' = getServer k s) /\
  pingLogs s' = pingLogs s.
Proof.
  unfold createServers. pose proof (createServers_loop_spec inss now s) as H.
  destruct (createServers_loop inss now s) as [created s1].
  destruct H as [Hid [Hh [_ [Hf [Hcur [Hout [Hin [Hl _]]]]]]]].
  unfold getServer. simpl.
  repeat split; assumption.
Qed.

(** X7: the handler of [PATCH /api/settings] stores the merged settings
    in every case, yet never changes the ping service. With a truthy
    [pingInterval] and a cron job running, [updateSchedule] reaches
    [stopScheduledPing], whose [destroy()] call throws: the answer is 500
    and the old job keeps its old expression. Otherwise the answer is 200
    with the merged settings. [startScheduledPing] succeeds only when no
    job is running, scheduling the stored interval and starting one sweep. *)
Theorem patchSettings_running_job_fails (p : SettingsPatch.t) (svc : PingService.t)
  (s : MemStorage.t) :
  (let '(resp, svc', s') := patchSettingsRoute p svc s in
   svc' = svc /\ s' = snd (updateSettings p s) /\
   getSettings s' = fst (updateSettings p s) /\
   resp = match PingService.cronJob svc, js_truthy_num (SettingsPatch.pingInterval p) with
          | Some _, Some _ => PatchError500
          | _, _ => PatchOk200 (fst (updateSettings p s))
          end) /\
  startScheduledPing svc s =
    match PingService.cronJob svc with
    | Some _ => None
    | None => Some (PingService.mk (Some (cronExpression (Settings.pingInterval (getSettings s))))
                      (S (PingService.initialSweeps svc)))
    end.
Proof.
  destruct svc as [job sw], p as [pi to ar].
  split; [|destruct job; reflexivity].
  unfold patchSettingsRoute, updateSchedule, startScheduledPing, stopScheduledPing.
  cbn [updateSettings fst snd SettingsPatch.pingInterval PingService.cronJob].
  destruct (js_truthy_num pi), job; repeat split.
Qed.

Lemma insert_desc_perm (x : PingLog.t) (l : list PingLog.t) :
  Permutation (insert_desc x l) (x :: l).
Proof.
  induction l as [|y r IH]; simpl; [reflexivity|].
  destruct (PingLog.timestamp y <=? PingLog.timestamp x); [reflexivity|].
  etransitivity; [apply perm_skip, IH|apply perm_swap].
Qed.

Lemma sort_desc_perm (l : list PingLog.t) : Permutation (sort_desc l) l.
Proof.
  induction l as [|x r IH]; simpl; [reflexivity|].
  rewrite insert_desc_perm. now apply perm_skip.
Qed.

Lemma js_slice0_all {A} (xs : list A) (e : Z) :
  Z.of_nat (List.length xs) <= e -> js_slice0 xs e = xs.
Proof.
  unfold js_slice0. intros H.
  destruct (Z.ltb_spec e 0); [lia|].
  rewrite Z.min_r by lia. rewrite Nat2Z.id. apply firstn_all.
Qed.

Lemma js_slice0_cons {A} (x : A) (xs : list A) (e : Z) :
  1 <= e -> js_slice0 (x :: xs) e = x :: js_slice0 xs (e - 1).
Proof.
  unfold js_slice0. intros H. cbn [List.length].
  destruct (Z.ltb_spec e 0); [lia|]. destruct (Z.ltb_spec (e - 1) 0); [lia|].
  assert (E : Z.min e (Z.of_nat (S (List.length xs))) =
              Z.succ (Z.min (e - 1) (Z.of_nat (List.length xs)))) by lia.
  rewrite E, Z2Nat.inj_succ by lia. reflexivity.
Qed.

Lemma sort_desc_app_newest (x : PingLog.t) (l : list PingLog.t) :
  (forall y, In y l -> PingLog.timestamp y < PingLog.timestamp x) ->
  sort_desc (l ++ [x]) = x :: sort_desc l.
Proof.
  induction l as [|y r IH]; intros H; simpl; [reflexivity|].
  rewrite IH by (intros z Hz; apply H; now right). simpl.
  destruct (Z.leb_spec (PingLog.timestamp x) (PingLog.timestamp y)) as [Hle|]; [|reflexivity].
  specialize (H y (or_introl eq_refl)). lia.
Qed.

(** X8: with no target filter (or a nonzero target id) and a limit at
    least the number of stored records, [getPingLogs] returns every
    matching stored record exactly once, newest first. *)
Theorem getPingLogs_complete (sid lim : Z) (s : MemStorage.t) :
  sid <> 0 -> Z.of_nat (List.length (pingLogs s)) <= lim ->
  Permutation (getPingLogs None lim s) (pingLogs s) /\
  Sorted newer_or_same (getPingLogs None lim s) /\
  Permutation (getPingLogs (Some sid) lim s)
    (filter (fun l => Z.eqb (PingLog.serverId l) sid) (pingLogs s)) /\
  Sorted newer_or_same (getPingLogs (Some sid) lim s).
Proof.
  intros Hsid Hlim. unfold getPingLogs, js_truthy_num.
  destruct (Z.eqb_spec sid 0) as [|_]; [contradiction|].
  rewrite !js_slice0_all.
  - split; [apply sort_desc_perm|split; [apply sort_desc_sorted|]].
    split; [apply sort_desc_perm|apply sort_desc_sorted].
  - rewrite (Permutation_length (sort_desc_perm _)).
    pose proof (filter_length_le (fun l => Z.eqb (PingLog.serverId l) sid) (pingLogs s)). lia.
  - rewrite (Permutation_length (sort_desc_perm _)). exact Hlim.
Qed.

Lemma getPingLogs_complete_witness :
  Permutation (getPingLogs None 100 one_log_store) (pingLogs one_log_store).
Proof.
  refine (proj1 (getPingLogs_complete 1 100 one_log_store _ _)); [lia|vm_compute; discriminate].
Defined.

(** X9: a record appended (below the cap) with a clock value newer than
    every stored record heads its target's history and the unfiltered
    history, followed by what the same query returned before with one
    place less. *)
Theorem createPingLog_newest_first (ins : InsertPingLog.t) (now lim : Z) (s : MemStorage.t) :
  InsertPingLog.serverId ins <> 0 -> 1 <= lim ->
  Z.of_nat (List.length (pingLogs s)) < MAX_PING_LOGS ->
  (forall l, In l (pingLogs s) -> PingLog.timestamp l < now) ->
  let '(log, s') := createPingLog ins now s in
  getPingLogs (Some (InsertPingLog.serverId ins)) lim s' =
    log :: getPingLogs (Some (InsertPingLog.serverId ins)) (lim - 1) s /\
  getPingLogs None lim s' = log :: getPingLogs None (lim - 1) s.
Proof.
  intros Hsid Hlim Hcap Hts.
  pose proof (createPingLog_pingLogs ins now s) as E.
  destruct (createPingLog ins now s) as [log s'] eqn:C. simpl in E.
  assert (Hlog : PingLog.serverId log = InsertPingLog.serverId ins /\ PingLog.timestamp log = now)
    by (unfold createPingLog in C; inversion C; split; reflexivity).
  destruct Hlog as [Hls Hlt].
  rewrite length_app in E. simpl in E.
  destruct (Z.gtb_spec (Z.of_nat (List.length (pingLogs s) + 1)) MAX_PING_LOGS); [lia|].
  unfold getPingLogs, js_truthy_num. rewrite E.
  destruct (Z.eqb_spec (InsertPingLog.serverId ins) 0) as [|_]; [contradiction|].
  rewrite filter_app. simpl. rewrite Hls, Z.eqb_refl.
  rewrite !sort_desc_app_newest.
  - split; apply js_slice0_cons; exact Hlim.
  - intros y Hy. rewrite Hlt. now apply Hts.
  - intros y Hy. apply filter_In in Hy as [Hy _]. rewrite Hlt. now apply Hts.
Qed.

Lemma createPingLog_newest_first_witness :
  let '(log, s') := createPingLog (sample_insert 1) 9 one_log_store in
  getPingLogs None 5 s' = log :: getPingLogs None 4 one_log_store.
Proof.
  pose proof (createPingLog_newest_first (sample_insert 1) 9 5 one_log_store) as H.
  destruct (createPingLog (sample_insert 1) 9 one_log_store) as [log s'].
  refine (proj2 (H _ _ _ _)).
  - simpl. lia.
  - lia.
  - vm_compute. reflexivity.
  - intros l Hl. vm_compute in Hl. destruct Hl as [<-|[]]. vm_compute. reflexivity.
Defined.

Lemma updateServer_pingLogs (id : Z) (p : ServerPatch.t) (s : MemStorage.t) :
  pingLogs (snd (updateServer id p s)) = pingLogs s /\
  settings (snd (updateServer id p s)) = settings s.
Proof. unfold updateServer. destruct (map_get id (servers s)); split; reflexivity. Qed.

Lemma updateServer_counters (id : Z) (p : ServerPatch.t) (s : MemStorage.t) :
  currentPingLogId (snd (updateServer id p s)) = currentPingLogId s.
Proof. unfold updateServer. destruct (map_get id (servers s)); reflexivity. Qed.

Lemma pingAll_loop_spec (probe : Prober) (T : Z) (clock : nat -> Z) (i0 : nat)
  (l : list Server.t) (s : MemStorage.t) :
  NoDup (map Server.id l) ->
  (forall srv, In srv l -> map_get (Server.id srv) (servers s) = Some srv) ->
  let s' := pingAll_loop probe T clock i0 l s in
  map fst (servers s') = map fst (servers s) /\
  (forall i srv, nth_error l i = Some srv -> map_get (Server.id srv) (servers s') =
     Some (apply_patch srv (status_patch (probe srv T) (clock (2 * (i0 + i))%nat)))) /\
  (forall k, ~ In k (map Server.id l) -> map_get k (servers s') = map_get k (servers s)) /\
  settings s' = settings s /\
  (Z.of_nat (List.length (pingLogs s) + List.length l) <= MAX_PING_LOGS ->
   exists new, pingLogs s' = pingLogs s ++ new /\ List.length new = List.length l /\
     forall i srv, nth_error l i = Some srv ->
       nth_error new i = Some (sweep_record probe T srv (currentPingLogId s + Z.of_nat i)
                                 (clock (S (2 * (i0 + i)))))).
Proof.
  revert s i0. induction l as [|srv rest IH]; intros s i0 Hnd Hget; cbn [pingAll_loop].
  - split; [reflexivity|split; [intros [|i] ? H; discriminate H|]].
    split; [reflexivity|split; [reflexivity|]].
    intros _. exists []. split; [now rewrite app_nil_r|split; [reflexivity|]].
    intros [|i] ? H; discriminate H.
  - inversion Hnd as [|? ? Hnot Hnd']; subst.
    assert (G : map_get (Server.id srv) (servers s) = Some srv) by (apply Hget; now left).
    set (now1 := clock (2 * i0)%nat). set (now2 := clock (S (2 * i0))).
    pose proof (updateServer_servers (Server.id srv) (status_patch (probe srv T) now1) s) as Es1.
    pose proof (updateServer_pingLogs (Server.id srv) (status_patch (probe srv T) now1) s) as [Ls1 Ss1].
    pose proof (updateServer_counters (Server.id srv) (status_patch (probe srv T) now1) s) as Cs1.
    rewrite G in Es1.
    destruct (updateServer (Server.id srv) (status_patch (probe srv T) now1) s) as [u s1].
    simpl in Es1, Ls1, Ss1, Cs1.
    pose proof (createPingLog_servers (log_insert (Server.id srv) (probe srv T)) now2 s1) as [Es2 Ss2].
    pose proof (createPingLog_pingLogs (log_insert (Server.id srv) (probe srv T)) now2 s1) as Ls2.
    assert (Hlg : fst (createPingLog (log_insert (Server.id srv) (probe srv T)) now2 s1)
                  = sweep_record probe T srv (currentPingLogId s) now2)
      by (rewrite <- Cs1; reflexivity).
    assert (Cs2 : currentPingLogId (snd (createPingLog (log_insert (Server.id srv) (probe srv T)) now2 s1))
                  = currentPingLogId s + 1) by (rewrite <- Cs1; reflexivity).
    destruct (createPingLog (log_insert (Server.id srv) (probe srv T)) now2 s1) as [lg s2].
    simpl in Es2, Ss2, Ls2, Hlg, Cs2.
    assert (Hget2 : forall x, In x rest -> map_get (Server.id x) (servers s2) = Some x).
    { intros x Hx. rewrite Es2, Es1, map_get_set.
      destruct (Z.eqb_spec (Server.id x) (Server.id srv)) as [E|_].
      - exfalso. apply Hnot. rewrite <- E. now apply in_map.
      - apply Hget. now right. }
    destruct (IH s2 (S i0) Hnd' Hget2) as [Hk [Hin [Hout [Hs Hlogs]]]].
    split.
    { rewrite Hk, Es2, Es1. apply map_set_keys_present.
      apply map_get_In in G. change (Server.id srv) with (fst (Server.id srv, srv)).
      now apply in_map. }
    split.
    { intros [|i] x Hx.
      - injection Hx as <-. rewrite Hout by exact Hnot.
        rewrite Es2, Es1, map_get_set, Z.eqb_refl. rewrite Nat.add_0_r. reflexivity.
      - rewrite (Hin i x Hx). now replace (S i0 + i)%nat with (i0 + S i)%nat by lia. }
    split.
    { intros k Hk'. rewrite Hout by (intros H; apply Hk'; now right).
      rewrite Es2, Es1, map_get_set.
      destruct (Z.eqb_spec k (Server.id srv)) as [->|]; [|reflexivity].
      exfalso. apply Hk'. now left. }
    split; [congruence|].
    intros Hcap. cbn [List.length] in Hcap.
    rewrite Ls1 in Ls2. rewrite length_app in Ls2. simpl in Ls2.
    destruct (Z.gtb_spec (Z.of_nat (List.length (pingLogs s) + 1)) MAX_PING_LOGS); [lia|].
    destruct Hlogs as [new [Enew [Lnew Hnew]]].
    { rewrite Ls2, length_app. simpl. lia. }
    exists (lg :: new). split; [|split; [simpl; now f_equal|]].
    { rewrite Enew, Ls2. now rewrite <- app_assoc. }
    intros [|i] x Hx.
    + injection Hx as <-. simpl. rewrite Hlg, Z.add_0_r, Nat.add_0_r. reflexivity.
    + simpl. rewrite (Hnew i x Hx), Cs2.
      replace (S i0 + i)%nat with (i0 + S i)%nat by lia.
      replace (currentPingLogId s + 1 + Z.of_nat i) with (currentPingLogId s + Z.of_nat (S i)) by lia.
      reflexivity.
Qed.

Lemma sweep_setup (s : MemStorage.t) :
  store_wf s ->
  NoDup (map Server.id (getServers s)) /\
  (forall srv, In srv (getServers s) -> map_get (Server.id srv) (servers s) = Some srv) /\
  map Server.id (getServers s) = map fst (servers s).
Proof.
  intros [Hn Hf]. rewrite Forall_forall in Hf.
  assert (Hids : map Server.id (getServers s) = map fst (servers s)).
  { unfold getServers, map_values. rewrite map_map. apply map_ext_in.
    intros e He. apply Hf, He. }
  split; [now rewrite Hids|split; [|exact Hids]].
  intros srv H. unfold getServers, map_values in H.
  apply in_map_iff in H as [[k v] [E Hin]]. simpl in E. subst v.
  pose proof (Hf _ Hin) as Ek. simpl in Ek. rewrite Ek. now apply In_map_get.
Qed.

Lemma pingAllServers_all_probed (probe : Prober) (clock : nat -> Z) (s : MemStorage.t) :
  store_wf s ->
  forall srv, In srv (getServers (pingAllServers probe clock s)) ->
  Server.status srv <> Unknown /\ exists i, Server.lastPing srv = Some (clock (2 * i)%nat).
Proof.
  intros Hw. destruct (sweep_setup s Hw) as [Hnd [Hget Hids]].
  set (T := Settings.timeout (getSettings s)). set (s' := pingAllServers probe clock s).
  destruct (pingAll_loop_spec probe T clock 0 (getServers s) s Hnd Hget)
    as [Hk [Hin _]].
  fold (pingAllServers probe clock s) in Hk, Hin. fold s' in Hk, Hin.
  intros x Hx.
  pose proof (pingAll_loop_wf probe T clock 0 (getServers s) s Hw) as [Hn' Hf'].
  fold (pingAllServers probe clock s) in Hn', Hf'. fold s' in Hn', Hf'.
  unfold getServers, map_values in Hx. apply in_map_iff in Hx as [[k v] [E Hkv]].
  simpl in E. subst v.
  assert (Hk' : In k (map fst (servers s))).
  { rewrite <- Hk. change k with (fst (k, x)). now apply in_map. }
  rewrite <- Hids in Hk'. apply in_map_iff in Hk' as [srv [Ek Hsrv]].
  apply In_nth_error in Hsrv as [i Hi].
  pose proof (Hin i srv Hi) as G. rewrite Ek in G.
  rewrite (In_map_get _ _ _ Hn' Hkv) in G. inversion G; subst x.
  unfold apply_patch, status_patch. simpl.
  split; [destruct (PingResult.success _); discriminate|now exists i].
Qed.





Lemma absent_id_routes (id : Z) (probe : Prober) (now : Z) (s : MemStorage.t) :
  getServer id s = None ->
  deleteRoute id s = (DeleteNotFound404, s) /\ pingOneRoute id probe now s = (NotFound404, s).
Proof.
  intros G. unfold pingOneRoute. rewrite G. split; [|reflexivity].
  unfold deleteRoute, deleteServer, map_delete.
  pose proof (map_get_isSome id (servers s)) as H. unfold map_has in H.
  unfold getServer in G. rewrite G in H. rewrite <- H. reflexivity.
Qed.

(** X12: the handler of [DELETE /api/servers/:id] answers 200 exactly
    when the id is stored; afterwards the id is absent, so deleting it again
    or pinging it answers 404 and changes nothing. *)
Theorem deleteRoute_removes (id : Z) (probe : Prober) (now : Z) (s : MemStorage.t) :
  let '(resp, s') := deleteRoute id s in
  (resp = DeleteOk200 <-> getServer id s <> None) /\
  getServer id s' = None /\
  deleteRoute id s' = (DeleteNotFound404, s') /\
  pingOneRoute id probe now s' = (NotFound404, s').
Proof.
  pose proof (map_get_isSome id (servers s)) as H. unfold map_has in H.
  unfold deleteRoute, deleteServer, map_delete, getServer.
  destruct (existsb (fun e => Z.eqb id (fst e)) (servers s)) eqn:Ex.
  - assert (G : getServer id (saveData (set_servers
                   (filter (fun e => negb (Z.eqb id (fst e))) (servers s)) s)) = None).
    { unfold getServer. simpl. rewrite map_get_filter_other, Z.eqb_refl. reflexivity. }
    split; [|split; [exact G|apply absent_id_routes, G]].
    destruct (map_get id (servers s)); [|discriminate].
    split; [discriminate|reflexivity].
  - destruct (map_get id (servers s)) eqn:G; [discriminate|].
    split; [split; [discriminate|intros C; now contradiction C]|].
    split; [reflexivity|]. apply absent_id_routes. exact G.
Qed.

Lemma httpPing_loop_latency f target T ps spent urls :
  let '(r, _, _) := httpPing_loop f target T ps spent urls in
  (PingResult.success r = true <-> PingResult.responseTime r <> None).
Proof.
  revert spent urls. induction ps as [|p rest IH]; intros spent urls; cbn [httpPing_loop].
  - simpl. split; [discriminate|intros C; now contradiction C].
  - destruct (f _) as [st txt e|e|].
    + destruct (e <? abort_deadline T); [|simpl; split; [discriminate|intros C; now contradiction C]].
      destruct ((200 <=? st) && (st <? 500)); simpl.
      * split; [discriminate|reflexivity].
      * split; [discriminate|intros C; now contradiction C].
    + destruct (e <? abort_deadline T); [apply IH|simpl; split; [discriminate|intros C; now contradiction C]].
    + simpl. split; [discriminate|intros C; now contradiction C].
Qed.

Lemma first_socket_event_connect (ev : SocketEvent) (l T e : Z) :
  first_socket_event ev l T = EvConnect e -> ev = SockConnect e.
Proof.
  unfold first_socket_event. cbv zeta.
  destruct (Z.min (T * 1000) 2000 =? 0);
    [|destruct ((0 <? l) && (l <? Z.min (T * 1000) 2000))];
    destruct ev as [e0|e0|]; try destruct (e0 <? _); intros H; try discriminate H;
    injection H as <-; reflexivity.
Qed.

Lemma tcpPing_settled (net : Net) (target : string) (T : Z) (r : PingResult.t) (e : Z) :
  tcpPing net target T = Some (r, e) ->
  (r = PingResult.mk true (Some e) "TCP connection successful on port 22"%string /\
   connect net target 22 = SockConnect e /\ e <= js_timer_delay (T * 1000)) \/
  (r = PingResult.mk false None "Connection timeout"%string /\ e = js_timer_delay (T * 1000)).
Proof.
  unfold tcpPing. destruct (T <? 0); [discriminate|]. cbv zeta. cbn [hd tcpPorts].
  destruct (first_socket_event (connect net target 22) (lookup net target) T) as [e0|e0|e0|] eqn:F.
  - apply first_socket_event_connect in F.
    destruct (Z.leb_spec e0 (js_timer_delay (T * 1000))); intros Hr; injection Hr as <- <-.
    + left. split; [reflexivity|split; [exact F|assumption]].
    + right. split; reflexivity.
  - destruct (e0 <=? _); [discriminate|]. intros Hr; injection Hr as <- <-. right. split; reflexivity.
  - destruct (e0 <=? _); [discriminate|]. intros Hr; injection Hr as <- <-. right. split; reflexivity.
  - intros Hr; injection Hr as <- <-. right. split; reflexivity.
Qed.

(** X13: a probe result that settles carries a latency exactly when it
    reports success, and so does every result of the HTTP check alone. *)
Theorem probe_latency_iff_success (net : Net) (srv : Server.t) (T : Z)
  (r : PingResult.t) (e : Z) :
  pingServer net srv T = Some (r, e) ->
  (PingResult.success r = true <-> PingResult.responseTime r <> None) /\
  (forall target T', let '(r', _, _) := httpPing (fetch net) target T' in
     PingResult.success r' = true <-> PingResult.responseTime r' <> None).
Proof.
  assert (Htcp : forall target T0 r0 e0, tcpPing net target T0 = Some (r0, e0) ->
                 (PingResult.success r0 = true <-> PingResult.responseTime r0 <> None)).
  { intros target T0 r0 e0 Tc.
    destruct (tcpPing_settled _ _ _ _ _ Tc) as [[-> _]|[-> _]]; simpl.
    - split; [discriminate|reflexivity].
    - split; [discriminate|intros C; now contradiction C]. }
  intros Hp. split; [|intros target T'; apply httpPing_loop_latency].
  revert Hp. unfold pingServer.
  destruct (isLocalIP (probe_target srv)).
  - destruct (tcpPing _ _ _) as [[r1 e1]|] eqn:Tc; [|discriminate].
    destruct (PingResult.success r1) eqn:S1.
    + intros H; inversion H; subst. exact (Htcp _ _ _ _ Tc).
    + pose proof (httpPing_loop_latency (fetch net) (probe_target srv) (Z.min T 3)
                    (httpProtocols (probe_target srv)) 0 []) as Hh.
      unfold httpPing. destruct (httpPing_loop _ _ _ _ _ _) as [[r2 e2] u2].
      intros H; inversion H; subst. exact Hh.
  - pose proof (httpPing_loop_latency (fetch net) (probe_target srv) T
                  (httpProtocols (probe_target srv)) 0 []) as Hh.
    unfold httpPing. destruct (httpPing_loop _ _ _ _ _ _) as [[r1 e1] u1].
    destruct (PingResult.success r1) eqn:S1.
    + intros H; inversion H; subst. rewrite S1. exact Hh.
    + destruct (tcpPing _ _ _) as [[r2 e2]|] eqn:Tc; [|discriminate].
      intros H; inversion H; subst. exact (Htcp _ _ _ _ Tc).
Qed.

Lemma probe_latency_iff_success_witness :
  pingServer net_instant_connect
    (new_server 1 (InsertServer.mk "router"%string "127.0.0.1"%string None) 0) 10 =
  Some (instant_tcp_result, 0) /\
  (PingResult.success instant_tcp_result = true <->
   PingResult.responseTime instant_tcp_result <> None).
Proof.
  assert (H : pingServer net_instant_connect
    (new_server 1 (InsertServer.mk "router"%string "127.0.0.1"%string None) 0) 10 =
    Some (instant_tcp_result, 0)) by (vm_compute; reflexivity).
  split; [exact H|].
  exact (proj1 (probe_latency_iff_success _ _ 10 _ _ H)).
Defined.

(** X14: when [tcpPing] settles, its result is one of two: the TCP
    success on port 22, reported at the moment the socket connected (no
    later than the fallback timer), or the failure "Connection timeout"
    of the fallback timer, reported when that timer fires (after
    [timeoutSeconds * 1000] ms, or 1 ms where Node clamps the delay).
    The failures "No response on common ports" and "Connection timeout on
    all ports" never come out, since one socket completes at most one
    attempt of the thirteen these wait for. *)
Theorem tcpPing_outcomes (net : Net) (target : string) (T : Z) (r : PingResult.t) (e : Z) :
  tcpPing net target T = Some (r, e) ->
  (r = PingResult.mk true (Some e) "TCP connection successful on port 22"%string /\
   connect net target 22 = SockConnect e /\ e <= js_timer_delay (T * 1000)) \/
  (r = PingResult.mk false None "Connection timeout"%string /\ e = js_timer_delay (T * 1000)).
Proof.
  intros H. destruct (tcpPing_settled _ _ _ _ _ H) as [[Hr [Hc He]]|[Hr He]].
  - left. split; [exact Hr|split; [exact Hc|exact He]].
  - right. split; [exact Hr|exact He].
Qed.

Lemma tcpPing_outcomes_witness :
  tcpPing net_silent_after_lookup "nas.example"%string 2 =
    Some (PingResult.mk false None "Connection timeout"%string, 2000) /\
  PingResult.mk false None "Connection timeout"%string = PingResult.mk false None "Connection timeout"%string /\
  2000 = js_timer_delay (2 * 1000).
Proof.
  assert (H : tcpPing net_silent_after_lookup "nas.example"%string 2 =
              Some (PingResult.mk false None "Connection timeout"%string, 2000))
    by (vm_compute; reflexivity).
  split; [exact H|].
  destruct (tcpPing_outcomes _ _ _ _ _ H) as [[Hr _]|Hfail]; [discriminate Hr|exact Hfail].
Defined.

(** X15: if the first protocol's request gets no answer before the
    abort timer fires (no answer at all, or a response or network error at
    that moment or later), the HTTP check gives up at once with
    "Connection timeout" when the timer fires, without trying the second
    protocol. The timer fires after [timeoutSeconds * 1000] ms, or after
    1 ms where Node clamps the delay (0 or less, or above 2^31 - 1). *)
Theorem httpPing_timeout_stops (f : string -> FetchEvent) (target : string) (T : Z) :
  let url := protocol_url target (hd Http (httpProtocols target)) in
  match f url with
  | FetchNoAnswer => True
  | FetchResponse _ _ e | FetchError e => abort_deadline T <= e
  end ->
  httpPing f target T =
  (PingResult.mk false None "Connection timeout"%string, abort_deadline T, [url]).
Proof.
  unfold httpPing, protocol_url. cbv zeta.
  assert (Hp : exists p rest, httpProtocols target = p :: rest)
    by (unfold httpProtocols; destruct (isIP target); eauto).
  destruct Hp as [p [rest E]]. rewrite E. cbn [hd httpPing_loop]. cbv zeta.
  destruct (f _) as [st txt e|e|]; intros H.
  - destruct (Z.ltb_spec e (abort_deadline T)); [lia|]. reflexivity.
  - destruct (Z.ltb_spec e (abort_deadline T)); [lia|]. reflexivity.
  - reflexivity.
Qed.

Lemma httpPing_timeout_stops_witness :
  httpPing (fun _ => FetchNoAnswer) "example.com"%string 10 =
  (PingResult.mk false None "Connection timeout"%string, 10000,
   [protocol_url "example.com"%string Https]).
Proof. exact (httpPing_timeout_stops (fun _ => FetchNoAnswer) "example.com"%string 10 I). Defined.

Lemma split_dot_single_app (x y : string) :
  split_dot x = [x] -> split_dot (x ++ "." ++ y) = x :: split_dot y.
Proof.
  induction x as [|c r IH]; intros H; [reflexivity|].
  simpl in H |- *. destruct (Ascii.eqb c "."%char); [discriminate|].
  destruct (split_dot r) as [|f fs] eqn:Sr.
  - inversion H; subst. simpl in Sr. discriminate.
  - inversion H; subst. specialize (IH eq_refl). simpl in IH. rewrite IH. reflexivity.
Qed.

Lemma octet_table :
  forallb (fun k => octet (Z_to_dec (Z.of_nat k)) &&
                    match split_dot (Z_to_dec (Z.of_nat k)) with
                    | [u] => String.eqb u (Z_to_dec (Z.of_nat k))
                    | _ => false
                    end) (seq 0 256) = true.
Proof. vm_compute. reflexivity. Qed.

Lemma octet_Z_to_dec (n : Z) :
  0 <= n <= 255 -> octet (Z_to_dec n) = true /\ split_dot (Z_to_dec n) = [Z_to_dec n].
Proof.
  intros Hn. pose proof octet_table as T. rewrite forallb_forall in T.
  assert (Hin : In (Z.to_nat n) (seq 0 256)) by (apply in_seq; lia).
  specialize (T _ Hin). rewrite Z2Nat.id in T by lia.
  apply andb_true_iff in T as [T1 T2]. split; [exact T1|].
  destruct (split_dot (Z_to_dec n)) as [|u [|]]; try discriminate.
  apply String.eqb_eq in T2. now subst.
Qed.

Lemma prefix_empty (s : string) : prefix EmptyString s = true.
Proof. destruct s; reflexivity. Qed.

Lemma public_first_octets (k : nat) (rest : string) :
  In k (seq 11 116) -> isLocalIP (Z_to_dec (Z.of_nat k) ++ "." ++ rest) = false.
Proof.
  intros Hk. simpl in Hk.
  repeat (destruct Hk as [<-|Hk]; [vm_compute; reflexivity|]). destruct Hk.
Qed.

(** X16: every dotted quad [a.b.c.d] with octets 0..255, as a template
    string prints it, is an IP literal for [httpPing] (http is tried
    first); it is private for [pingServer] (TCP first) when it lies in
    10/8, 127/8, 192.168/16 or 172.16/12, and not private when its first
    octet is between 11 and 126. *)
Theorem dotted_quad_classification (a b c d : Z) :
  0 <= a <= 255 -> 0 <= b <= 255 -> 0 <= c <= 255 -> 0 <= d <= 255 ->
  isIP (dotted_quad a b c d) = true /\
  httpProtocols (dotted_quad a b c d) = [Http; Https] /\
  isLocalIP (dotted_quad 10 b c d) = true /\
  isLocalIP (dotted_quad 127 b c d) = true /\
  isLocalIP (dotted_quad 192 168 c d) = true /\
  (16 <= b <= 31 -> isLocalIP (dotted_quad 172 b c d) = true) /\
  (11 <= a <= 126 -> isLocalIP (dotted_quad a b c d) = false).
Proof.
  intros Ha Hb Hc Hd.
  destruct (octet_Z_to_dec a Ha) as [Oa Sa]. destruct (octet_Z_to_dec b Hb) as [Ob Sb].
  destruct (octet_Z_to_dec c Hc) as [Oc Sc]. destruct (octet_Z_to_dec d Hd) as [Od Sd].
  assert (Hip : isIP (dotted_quad a b c d) = true).
  { unfold isIP, dotted_quad.
    rewrite (split_dot_single_app _ _ Sa), (split_dot_single_app _ _ Sb),
            (split_dot_single_app _ _ Sc), Sd.
    simpl. now rewrite Oa, Ob, Oc, Od. }
  split; [exact Hip|]. split; [unfold httpProtocols; now rewrite Hip|].
  unfold dotted_quad.
  split; [change (Z_to_dec 10) with "10"%string; unfold isLocalIP; simpl;
          now rewrite prefix_empty|].
  split; [change (Z_to_dec 127) with "127"%string; unfold isLocalIP; simpl;
          now rewrite prefix_empty|].
  split; [change (Z_to_dec 192) with "192"%string; change (Z_to_dec 168) with "168"%string;
          unfold isLocalIP; simpl; now rewrite prefix_empty|].
  split.
  - intros Hb'. generalize (Z_to_dec c ++ "." ++ Z_to_dec d)%string. intros rest.
    assert (E : exists k, b = Z.of_nat k /\ In k (seq 16 16))
      by (exists (Z.to_nat b); split; [lia|apply in_seq; lia]).
    destruct E as [k [-> Hk]]. simpl in Hk.
    repeat (destruct Hk as [<-|Hk]; [vm_compute; reflexivity|]). destruct Hk.
  - intros Ha'.
    replace a with (Z.of_nat (Z.to_nat a)) by lia.
    apply public_first_octets. apply in_seq. lia.
Qed.

Lemma dotted_quad_classification_witness :
  isIP (dotted_quad 203 0 113 7) = true.
Proof. apply (dotted_quad_classification 203 0 113 7); lia. Defined.

Lemma status_partition (l : list Server.t) :
  (List.length (filter (is_status Online) l) + List.length (filter (is_status Offline) l) +
   List.length (filter (is_status Unknown) l) = List.length l)%nat.
Proof.
  induction l as [|x r IH]; [reflexivity|]. simpl.
  unfold is_status at 1 4 7. destruct (Server.status x); simpl; lia.
Qed.

(** X17: [GET /api/stats] counts each target once: online, offline and
    unknown targets add up to the total; after a sweep no target is
    unknown, so online and offline add up to the total. *)
Theorem statsRoute_partition (probe : Prober) (clock : nat -> Z) (s : MemStorage.t) :
  store_wf s ->
  Stats.onlineCount (statsRoute s) + Stats.offlineCount (statsRoute s) +
    Z.of_nat (List.length (filter (is_status Unknown) (getServers s))) =
  Stats.totalCount (statsRoute s) /\
  Stats.totalCount (statsRoute s) = Z.of_nat (List.length (getServers s)) /\
  Stats.onlineCount (statsRoute (pingAllServers probe clock s)) +
    Stats.offlineCount (statsRoute (pingAllServers probe clock s)) =
  Stats.totalCount (statsRoute (pingAllServers probe clock s)).
Proof.
  intros Hw. unfold statsRoute, computeStats. simpl.
  assert (U : filter (is_status Unknown) (getServers (pingAllServers probe clock s)) = []).
  { pose proof (pingAllServers_all_probed probe clock s Hw) as H.
    revert H. induction (getServers (pingAllServers probe clock s)) as [|x r IH];
      intros H; [reflexivity|].
    simpl. unfold is_status at 1.
    destruct (H x (or_introl eq_refl)) as [Hx _].
    assert (Hr : forall y, In y r -> Server.status y <> Unknown /\ exists i, Server.lastPing y = Some (clock (2 * i)%nat))
      by (intros y Hy; apply H; now right).
    destruct (Server.status x); [ | | exfalso; now apply Hx]; simpl; exact (IH Hr). }
  pose proof (status_partition (getServers s)) as P.
  pose proof (status_partition (getServers (pingAllServers probe clock s))) as P'.
  rewrite U in P'. simpl in P'.
  split; [lia|split; [reflexivity|lia]].
Qed.

Lemma statsRoute_partition_witness :
  Stats.onlineCount (statsRoute (pingAllServers (fun _ _ => instant_tcp_result) (fun _ => 50) loopback_store)) +
  Stats.offlineCount (statsRoute (pingAllServers (fun _ _ => instant_tcp_result) (fun _ => 50) loopback_store)) =
  Stats.totalCount (statsRoute (pingAllServers (fun _ _ => instant_tcp_result) (fun _ => 50) loopback_store)).
Proof.
  assert (Hw : store_wf loopback_store).
  { split; vm_compute; repeat constructor. intros []. }
  exact (proj2 (proj2 (statsRoute_partition (fun _ _ => instant_tcp_result) (fun _ => 50) loopback_store Hw))).
Defined.
